(** * zram compression frontend: workmem pool and backend registry

    A shallow embedding of [drivers/staging/zram/zram_comp.c] and
    [zram_comp.h], and the properties of the blocking workmem pool and of
    the backend registry proved over it.

    Pointers are numbers ([NULL] is 0), kernel memory is a finite map from
    addresses to typed blocks, the intrusive [list_head] lists are Rocq
    lists of the linked nodes, and the callers of the pool are threads of
    an interleaving semantics with one step per statement. *)

From Stdlib Require Import ZArith Ascii String.
From stdpp Require Import base option list gmap strings.

(** ** Kernel memory *)

(** A pointer: [Npos a] is the address [a], 0 is the null pointer. *)
Definition ptr := N.
Definition NULL : ptr := 0%N.

(** A pointer to a function, by the function's symbol. The backends'
    constructors and destructors live in [zcomp_lzo.c] and [zcomp_lz4.c];
    every other function a handle may point to is an [extern_fn]. *)
Inductive fn :=
| zcomp_lzo_create
| zcomp_lzo_destroy
| zcomp_lz4_create
| zcomp_lz4_destroy
| extern_fn (symbol : string).

(** [struct zcomp_workmem]. The [list] member is the node's membership in
    the idle list of its policy and has no field here. *)
Record zcomp_workmem := Workmem {
  wm_mem : ptr;   (* algorithm workmem *)
  wm_buf : ptr    (* compression/decompression buffer *)
}.

(** [struct zram_comp], the per-device compression frontend. A null
    function pointer or a null [name] is [None]. *)
Record zram_comp := Comp {
  comp_compress : option fn;
  comp_decompress : option fn;
  comp_workmem_get : option fn;
  comp_workmem_put : option fn;
  comp_create : option fn;
  comp_destroy : option fn;
  comp_private : ptr;
  comp_name : option string
}.

(** What an allocation holds. *)
Inductive block :=
| BWorkmem (w : zcomp_workmem)   (* kmalloc(sizeof(struct zcomp_workmem)) *)
| BVmalloc (sz : Z)              (* vmalloc(sz): a region of sz bytes *)
| BComp (c : zram_comp).         (* kzalloc(sizeof(struct zram_comp)) *)

(** Kernel memory: the live allocations, and the outcome of the coming
    allocation requests ([false]: the request fails), which is how memory
    pressure enters the model. Requests past the end of [pressure]
    succeed. *)
Record kmem := Kmem {
  heap : gmap positive block;
  pressure : list bool
}.

(** Whether an allocation request is granted under the given pressure. *)
Definition granted (o : option bool) : bool :=
  match o with
  | Some false => false
  | _ => true
  end.

(** Kernel code: it reads and writes memory and faults ([None]) when it
    dereferences a pointer to no live block of the expected type. *)
Definition kern (A : Type) : Type := kmem → option (A * kmem).

Definition kret {A} (x : A) : kern A := λ m, Some (x, m).
Definition kbind {A B} (c : kern A) (f : A → kern B) : kern B :=
  λ m, match c m with
       | Some (x, m') => f x m'
       | None => None
       end.
Definition kfault {A} : kern A := λ _, None.

Declare Scope kern_scope.
Delimit Scope kern_scope with kern.
Notation "x <- c ;; k" := (kbind c (λ x, k))
  (at level 20, c at level 99, k at level 200) : kern_scope.
Notation "c ;; k" := (kbind c (λ _, k))
  (at level 100, k at level 200, right associativity) : kern_scope.
Local Open Scope kern_scope.

(** Modelled from the spec: the kernel allocators ([kmalloc], [kzalloc],
    [vmalloc], [kfree], [vfree] of mm/) are not part of these sources. An
    allocation either fails with NULL or returns a block at an address that
    was not live; freeing NULL does nothing, freeing a block removes it
    from the outstanding allocations. *)
Definition alloc (b : block) : kern ptr := λ m,
  match pressure m with
  | false :: rest => Some (NULL, Kmem (heap m) rest)
  | _ :: rest =>
      let a := fresh (dom (heap m)) in
      Some (Npos a, Kmem (<[a := b]> (heap m)) rest)
  | [] =>
      let a := fresh (dom (heap m)) in
      Some (Npos a, Kmem (<[a := b]> (heap m)) [])
  end.

Definition release (p : ptr) : kern unit := λ m,
  match p with
  | N0 => Some (tt, m)
  | Npos a => Some (tt, Kmem (delete a (heap m)) (pressure m))
  end.

(** kmalloc(sizeof(struct zcomp_workmem), GFP_NOFS); the fields of the new
    structure hold nothing the code reads before it writes them. *)
Definition kmalloc_workmem : kern ptr := alloc (BWorkmem (Workmem NULL NULL)).
Definition vmalloc (sz : Z) : kern ptr := alloc (BVmalloc sz).
Definition kfree : ptr → kern unit := release.
Definition vfree : ptr → kern unit := release.

(** Reading and writing a [struct zcomp_workmem] through a pointer. *)
Definition load_workmem (p : ptr) : kern zcomp_workmem := λ m,
  match p with
  | Npos a => match heap m !! a with
              | Some (BWorkmem w) => Some (w, m)
              | _ => None
              end
  | N0 => None
  end.

Definition store_workmem (p : ptr) (w : zcomp_workmem) : kern unit := λ m,
  match p with
  | Npos a => match heap m !! a with
              | Some (BWorkmem _) => Some (tt, Kmem (<[a := BWorkmem w]> (heap m)) (pressure m))
              | _ => None
              end
  | N0 => None
  end.

Definition is_null (p : ptr) : bool := N.eqb p NULL.

(** ** The workmem pool *)

(** A thread of execution, by its index in the system's thread table. *)
Abbreviation tid := nat (only parsing).

(** [struct zcomp_wm_policy]: default device's compressing backend workmem
    control policy. *)
Record zcomp_wm_policy := Policy {
  buffer_lock : bool;          (* protect workmem list; true: locked *)
  idle_workmem : list ptr;     (* list of available workmems, head first *)
  workmem_wait : list tid      (* wait queue, head first *)
}.

(** <linux/list.h> on a list of nodes. *)
Definition list_empty (head : list ptr) : bool :=
  match head with [] => true | _ => false end.
Definition list_add_tail (new : ptr) (head : list ptr) : list ptr := head ++ [new].
Fixpoint list_del (entry : ptr) (head : list ptr) : list ptr :=
  match head with
  | [] => []
  | e :: rest => if N.eqb e entry then rest else e :: list_del entry rest
  end.

Section Workmem.

(** The page size of the storage layer, from the architecture headers. *)
Variable PAGE_SIZE : Z.
(** The error number of <asm-generic/errno-base.h>. *)
Variable EINVAL : Z.

Definition workmem_free (workmem : ptr) : kern unit :=
  w <- load_workmem workmem ;;
  vfree (wm_buf w) ;;
  vfree (wm_mem w) ;;
  kfree workmem.

(** allocate new workmem structure with ->mem of requested size,
    return NULL on error *)
Definition workmem_alloc (sz : Z) : kern ptr :=
  workmem <- kmalloc_workmem ;;
  if is_null workmem then kret NULL
  else
    (* INIT_LIST_HEAD(&workmem->list): the node is in no list *)
    (* algorithm specific working memory buffer *)
    mem <- vmalloc sz ;;
    w <- load_workmem workmem ;;
    store_workmem workmem (Workmem mem (wm_buf w)) ;;
    (* allocate 2 pages. 1 for compressed data, plus 1 extra for the
       case when compressed size is larger than the original one. *)
    buf <- vmalloc (2 * PAGE_SIZE)%Z ;;
    w <- load_workmem workmem ;;
    store_workmem workmem (Workmem (wm_mem w) buf) ;;
    w <- load_workmem workmem ;;
    if is_null (wm_mem w) || is_null (wm_buf w) then
      (* fail: *)
      workmem_free workmem ;;
      kret NULL
    else kret workmem.

(** The policy structure is written in place; the embedding returns the
    structure as the call leaves it, next to the return value. *)
Definition wm_policy_init (sz : Z) : kern (Z * zcomp_wm_policy) :=
  (* spin_lock_init, INIT_LIST_HEAD, init_waitqueue_head *)
  let policy := Policy false [] [] in
  (* allocate at least one workmem during initialisation,
     so zram write() will not get into trouble in case of
     low memory *)
  wm <- workmem_alloc sz ;;
  if is_null wm then kret ((- EINVAL)%Z, policy)
  else
    kret (0%Z, Policy (buffer_lock policy)
                    (list_add_tail wm (idle_workmem policy))
                    (workmem_wait policy)).

(** The loop of [wm_policy_free], by recursion on the idle list: it takes
    the first node, unlinks it and frees it, until the list is empty. *)
Fixpoint wm_policy_free_loop (n : nat) (idle : list ptr) : kern (list ptr) :=
  match n with
  | O => kret idle
  | S n' =>
      match idle with
      | [] => kret idle
      | wm :: _ =>
          workmem_free wm ;;
          wm_policy_free_loop n' (list_del wm idle)
      end
  end.

Definition wm_policy_free (policy : zcomp_wm_policy) : kern zcomp_wm_policy :=
  idle <- wm_policy_free_loop (length (idle_workmem policy)) (idle_workmem policy) ;;
  kret (Policy (buffer_lock policy) idle (workmem_wait policy)).

End Workmem.

Example workmem_alloc_ok :
  workmem_alloc 4096 64 (Kmem ∅ []) =
  Some (1%N, Kmem {[ 1%positive := BWorkmem (Workmem 2%N 3%N);
                     2%positive := BVmalloc 64;
                     3%positive := BVmalloc 8192 ]} []).
Proof. vm_compute. reflexivity. Qed.

Example workmem_alloc_no_buf :
  workmem_alloc 4096 64 (Kmem ∅ [true; true; false; true]) =
  Some (NULL, Kmem ∅ [true]).
Proof. vm_compute. reflexivity. Qed.

Example wm_policy_init_ok :
  wm_policy_init 4096 22 64 (Kmem ∅ []) =
  Some ((0%Z, Policy false [1%N] []),
        Kmem {[ 1%positive := BWorkmem (Workmem 2%N 3%N);
                2%positive := BVmalloc 64;
                3%positive := BVmalloc 8192 ]} []).
Proof. vm_compute. reflexivity. Qed.

Example wm_policy_init_enomem :
  wm_policy_init 4096 22 64 (Kmem ∅ [true; false]) =
  Some (((-22)%Z, Policy false [] []), Kmem ∅ []).
Proof. vm_compute. reflexivity. Qed.

(** ** Callers of the pool *)

(** The scheduler's view of a task, <linux/sched.h>. *)
Inductive task_state := TASK_RUNNING | TASK_UNINTERRUPTIBLE.

(** The statement a thread is at. The local variable [wm] of
    [wm_policy_workmem_get] and the argument [workmem] of
    [wm_policy_workmem_put] are carried by the labels where they are live. *)
Inductive label :=
| User                      (* in the caller's own code *)
| GetLock                   (* retry: spin_lock(&policy->buffer_lock) *)
| GetTest                   (* if (!list_empty(&policy->idle_workmem)) *)
| GetTake                   (* wm = list_entry(...); list_del(&wm->list) *)
| GetUnlock (wm : ptr)      (* spin_unlock(&policy->buffer_lock) *)
| GetReturn (wm : ptr)      (* return wm *)
| GetWaitUnlock             (* else: spin_unlock(&policy->buffer_lock) *)
| GetPrepare                (* prepare_to_wait_exclusive(...) *)
| GetRecheck                (* if (list_empty(&policy->idle_workmem)) *)
| GetSchedule               (* schedule() *)
| GetFinish                 (* finish_wait(...); goto retry *)
| GetNull                   (* should never happen: return NULL *)
| PutLock (workmem : ptr)   (* spin_lock(&policy->buffer_lock) *)
| PutAdd (workmem : ptr)    (* list_add_tail(&workmem->list, ...) *)
| PutUnlock                 (* spin_unlock(&policy->buffer_lock) *)
| PutActive                 (* if (waitqueue_active(&policy->workmem_wait)) *)
| PutWake                   (* wake_up(&policy->workmem_wait) *)
| Fault.                    (* list_entry() of an empty list *)

(** A caller: where it is, the units it has got from the pool and not yet
    put back, and its scheduling state. *)
Record thread := Thread {
  pc : label;
  held : list ptr;
  state : task_state
}.

(** What a thread does next: it enters one of the two functions from its
    own code (a unit is put by a caller that holds it), or it runs the
    statement it is at. *)
Inductive action :=
| CallGet
| CallPut (workmem : ptr)
| Run.

(** Modelled from the spec: the wait queue of <linux/wait.h> is not part of
    these sources. A waiter queues itself exclusively at the tail and is
    suspended from then on; [wake_up] wakes exactly one waiter, the first
    of the queue, and takes it off the queue; [finish_wait] leaves the
    queue; [schedule] returns once the task is runnable again. *)
Definition prepare_to_wait_exclusive (q : list tid) (t : tid) : list tid * task_state :=
  (if bool_decide (t ∈ q) then q else q ++ [t], TASK_UNINTERRUPTIBLE).
Definition waitqueue_active (q : list tid) : bool :=
  match q with [] => false | _ => true end.
Definition wake_up (q : list tid) : list tid * option tid :=
  match q with
  | [] => ([], None)
  | t :: rest => (rest, Some t)
  end.
Definition finish_wait (q : list tid) (t : tid) : list tid * task_state :=
  (filter (λ u, u ≠ t) q, TASK_RUNNING).

(** One statement of thread [t]: the policy and the thread after it, and
    the thread it has woken. [None]: the thread cannot move (it spins on
    the lock or sleeps), or the action is not one it can take. *)
Definition exec (t : tid) (a : action) (policy : zcomp_wm_policy) (th : thread)
  : option (zcomp_wm_policy * thread * option tid) :=
  let lock := buffer_lock policy in
  let idle := idle_workmem policy in
  let wait := workmem_wait policy in
  let goto l := Thread l (held th) (state th) in
  match pc th, a with
  | User, CallGet => Some (policy, goto GetLock, None)
  | User, CallPut workmem =>
      if bool_decide (workmem ∈ held th)
      then Some (policy, Thread (PutLock workmem) (list_del workmem (held th)) (state th), None)
      else None
  (* wm_policy_workmem_get *)
  | GetLock, Run =>
      if lock then None
      else Some (Policy true idle wait, goto GetTest, None)
  | GetTest, Run =>
      if negb (list_empty idle)
      then Some (policy, goto GetTake, None)
      else Some (policy, goto GetWaitUnlock, None)
  | GetTake, Run =>
      match idle with
      | wm :: _ => Some (Policy lock (list_del wm idle) wait, goto (GetUnlock wm), None)
      | [] => Some (policy, goto Fault, None)
      end
  | GetUnlock wm, Run => Some (Policy false idle wait, goto (GetReturn wm), None)
  | GetReturn wm, Run => Some (policy, Thread User (wm :: held th) (state th), None)
  | GetWaitUnlock, Run => Some (Policy false idle wait, goto GetPrepare, None)
  | GetPrepare, Run =>
      let '(q, st) := prepare_to_wait_exclusive wait t in
      Some (Policy lock idle q, Thread GetRecheck (held th) st, None)
  | GetRecheck, Run =>
      if list_empty idle
      then Some (policy, goto GetSchedule, None)
      else Some (policy, goto GetFinish, None)
  | GetSchedule, Run =>
      match state th with
      | TASK_RUNNING => Some (policy, goto GetFinish, None)
      | TASK_UNINTERRUPTIBLE => None
      end
  | GetFinish, Run =>
      let '(q, st) := finish_wait wait t in
      Some (Policy lock idle q, Thread GetLock (held th) st, None)
  | GetNull, Run => Some (policy, Thread User (NULL :: held th) (state th), None)
  (* wm_policy_workmem_put *)
  | PutLock workmem, Run =>
      if lock then None
      else Some (Policy true idle wait, goto (PutAdd workmem), None)
  | PutAdd workmem, Run =>
      Some (Policy lock (list_add_tail workmem idle) wait, goto PutUnlock, None)
  | PutUnlock, Run => Some (Policy false idle wait, goto PutActive, None)
  | PutActive, Run =>
      if waitqueue_active wait
      then Some (policy, goto PutWake, None)
      else Some (policy, goto User, None)
  | PutWake, Run =>
      let '(q, woken) := wake_up wait in
      Some (Policy lock idle q, goto User, woken)
  | _, _ => None
  end.

(** The pool and its callers. *)
Record system := System {
  pol : zcomp_wm_policy;
  threads : list thread
}.

Definition set_running (th : thread) : thread := Thread (pc th) (held th) TASK_RUNNING.

Definition wake (woken : option tid) (ths : list thread) : list thread :=
  match woken with
  | Some u => alter set_running u ths
  | None => ths
  end.

(** Thread [t] takes action [a]. *)
Definition sys_step (t : tid) (a : action) (s : system) : option system :=
  match threads s !! t with
  | Some th =>
      match exec t a (pol s) th with
      | Some (policy, th', woken) => Some (System policy (wake woken (<[t := th']> (threads s))))
      | None => None
      end
  | None => None
  end.

(** An interleaving: which thread moves, and how, step after step. *)
Definition schedule := list (tid * action).

Fixpoint run (sched : schedule) (s : system) : option system :=
  match sched with
  | [] => Some s
  | (t, a) :: rest =>
      match sys_step t a s with
      | Some s' => run rest s'
      | None => None
      end
  end.

(** A call that runs to its return with no other thread in between. *)
Fixpoint finish (fuel : nat) (t : tid) (s : system) : option system :=
  match fuel with
  | O => None
  | S fuel' =>
      match threads s !! t with
      | Some th =>
          match pc th with
          | User => Some s
          | _ => match sys_step t Run s with
                 | Some s' => finish fuel' t s'
                 | None => None
                 end
          end
      | None => None
      end
  end.

Definition call (t : tid) (a : action) (s : system) : option system :=
  match sys_step t a s with
  | Some s' => finish 16 t s'
  | None => None
  end.

(** [wm_policy_workmem_get] as one call of thread [t]: the unit returned
    and the system after the call; [None] when the call does not return. *)
Definition wm_policy_workmem_get (t : tid) (s : system) : option (ptr * system) :=
  match call t CallGet s with
  | Some s' =>
      match threads s' !! t with
      | Some th => match held th with
                   | wm :: _ => Some (wm, s')
                   | [] => None
                   end
      | None => None
      end
  | None => None
  end.

(** [wm_policy_workmem_put] as one call of thread [t]. *)
Definition wm_policy_workmem_put (t : tid) (workmem : ptr) (s : system) : option system :=
  call t (CallPut workmem) s.

(** Thread [t] puts the units [ws] one call after the other, then makes
    [k] calls of [wm_policy_workmem_get] and collects what they return. *)
Fixpoint put_all (t : tid) (ws : list ptr) (s : system) : option system :=
  match ws with
  | [] => Some s
  | w :: rest =>
      match wm_policy_workmem_put t w s with
      | Some s' => put_all t rest s'
      | None => None
      end
  end.

Fixpoint get_n (t : tid) (k : nat) (s : system) : option (list ptr * system) :=
  match k with
  | O => Some ([], s)
  | S k' =>
      match wm_policy_workmem_get t s with
      | Some (w, s') =>
          match get_n t k' s' with
          | Some (l, s'') => Some (w :: l, s'')
          | None => None
          end
      | None => None
      end
  end.

(** The statements of [wm_policy_workmem_put]. *)
Definition in_put (l : label) : bool :=
  match l with
  | PutLock _ | PutAdd _ | PutUnlock | PutActive | PutWake => true
  | _ => false
  end.

(** The units a thread has: those its caller holds, and the one in the
    hands of the pool function it is in. *)
Definition in_hand (l : label) : list ptr :=
  match l with
  | GetUnlock wm | GetReturn wm => [wm]
  | PutLock workmem | PutAdd workmem => [workmem]
  | _ => []
  end.
Definition owned (th : thread) : list ptr := in_hand (pc th) ++ held th.

(** All units checked out, thread by thread. *)
Definition checked_out (ths : list thread) : list ptr := flat_map owned ths.

(** The threads that have unit [w], from index [i] on. *)
Fixpoint holders_from (i : tid) (ths : list thread) (w : ptr) : list tid :=
  match ths with
  | [] => []
  | th :: rest =>
      (if bool_decide (w ∈ owned th) then [i] else []) ++ holders_from (S i) rest w
  end.
Definition holders (s : system) (w : ptr) : list tid := holders_from 0 (threads s) w.

(** The units of the system: those idle, then those checked out. *)
Definition all_units (s : system) : list ptr :=
  idle_workmem (pol s) ++ checked_out (threads s).

(** The statements between spin_lock and spin_unlock. *)
Definition in_critical (l : label) : bool :=
  match l with
  | GetTest | GetTake | GetUnlock _ | GetWaitUnlock | PutAdd _ | PutUnlock => true
  | _ => false
  end.

(** A pool of the given units, all idle, and [n] callers in their own code. *)
Definition fresh_thread : thread := Thread User [] TASK_RUNNING.
Definition pool_init (units : list ptr) (n : nat) : system :=
  System (Policy false units []) (replicate n fresh_thread).

Example get_put_two_threads :
  run [(0, CallGet); (1, CallGet); (0, Run); (0, Run); (0, Run);
       (0, Run); (1, Run); (0, Run)]
      (pool_init [7%N] 2) =
  Some (System (Policy true [] [])
          [Thread User [7%N] TASK_RUNNING; Thread GetTest [] TASK_RUNNING]).
Proof. vm_compute. reflexivity. Qed.

Example get_blocks_on_empty :
  wm_policy_workmem_get 0 (pool_init [] 1) = None.
Proof. vm_compute. reflexivity. Qed.

Example get_head :
  wm_policy_workmem_get 0 (pool_init [5%N; 6%N] 1) =
  Some (5%N, System (Policy false [6%N] []) [Thread User [5%N] TASK_RUNNING]).
Proof. vm_compute. reflexivity. Qed.

(** ** The backend registry *)

(** [struct zcomp]: a row of the table of compiled-in backends. The
    terminating row [{}] has null fields. *)
Record zcomp := Zcomp {
  zc_name : option string;
  zc_create : option fn;
  zc_destroy : option fn
}.

(** kzalloc(sizeof(struct zram_comp), GFP_KERNEL): a zeroed handle. *)
Definition kzalloc_comp : kern ptr :=
  alloc (BComp (Comp None None None None None None NULL None)).

Definition load_comp (p : ptr) : kern zram_comp := λ m,
  match p with
  | Npos a => match heap m !! a with
              | Some (BComp c) => Some (c, m)
              | _ => None
              end
  | N0 => None
  end.

Definition store_comp (p : ptr) (c : zram_comp) : kern unit := λ m,
  match p with
  | Npos a => match heap m !! a with
              | Some (BComp _) => Some (tt, Kmem (<[a := BComp c]> (heap m)) (pressure m))
              | _ => None
              end
  | N0 => None
  end.

Definition set_comp_name (v : option string) (c : zram_comp) : zram_comp :=
  Comp (comp_compress c) (comp_decompress c) (comp_workmem_get c) (comp_workmem_put c)
       (comp_create c) (comp_destroy c) (comp_private c) v.
Definition set_comp_create (v : option fn) (c : zram_comp) : zram_comp :=
  Comp (comp_compress c) (comp_decompress c) (comp_workmem_get c) (comp_workmem_put c)
       v (comp_destroy c) (comp_private c) (comp_name c).
Definition set_comp_destroy (v : option fn) (c : zram_comp) : zram_comp :=
  Comp (comp_compress c) (comp_decompress c) (comp_workmem_get c) (comp_workmem_put c)
       (comp_create c) v (comp_private c) (comp_name c).

(** Modelled from the spec: [strcmp] and [sprintf] of lib/ are not part of
    these sources. [strcmp] is 0 exactly on equal C strings (a string ends
    at its first NUL); [sprintf] with one [%s] conversion writes the
    formatted text and a terminating NUL at the start of its destination
    and returns the length of the text. The destination is taken to be
    large enough: a write past the end of the list extends it. *)
Fixpoint strcmp (s1 s2 : string) : Z :=
  match s1, s2 with
  | EmptyString, EmptyString => 0
  | EmptyString, String c2 _ => (0 - Z.of_nat (nat_of_ascii c2))%Z
  | String c1 _, EmptyString => Z.of_nat (nat_of_ascii c1)
  | String c1 r1, String c2 r2 =>
      if Ascii.eqb c1 c2
      then (if Ascii.eqb c1 zero then 0%Z else strcmp r1 r2)
      else (Z.of_nat (nat_of_ascii c1) - Z.of_nat (nat_of_ascii c2))%Z
  end.

Fixpoint format (fmt : string) (arg : string) : string :=
  match fmt with
  | EmptyString => EmptyString
  | String "%" (String "s" rest) => arg +:+ rest
  | String c rest => String c (format rest arg)
  end.

Definition sprintf (buf : list ascii) (off : Z) (fmt arg : string) : list ascii * Z :=
  let text := list_ascii_of_string (format fmt arg) in
  let at_ := Z.to_nat off in
  (take at_ buf ++ text ++ zero :: drop (at_ + length text + 1) buf,
   Z.of_nat (length text)).

Definition newline : string := String "010" EmptyString.

(** Modelled from the spec: [sysfs_streq] of lib/string.c is not part of
    these sources. The spec words the comparison of the requested name
    with a registry name as a case-insensitive trim-compare of sysfs-style
    attribute strings: the newline that ends an attribute write is dropped
    and letters are compared without regard to case. *)
Definition tolower (c : ascii) : ascii :=
  let n := nat_of_ascii c in
  if (65 <=? n)%nat && (n <=? 90)%nat then ascii_of_nat (n + 32) else c.

Fixpoint lowercase (s : string) : string :=
  match s with
  | EmptyString => EmptyString
  | String c rest => String (tolower c) (lowercase rest)
  end.

Fixpoint trim (s : string) : string :=
  match s with
  | EmptyString => EmptyString
  | String c EmptyString => if Ascii.eqb c "010" then EmptyString else s
  | String c rest => String c (trim rest)
  end.

Definition sysfs_streq_spec (s1 s2 : string) : bool :=
  String.eqb (lowercase (trim s1)) (lowercase (trim s2)).

Section Registry.

(** The kernel configuration. *)
Variable CONFIG_ZRAM_LZO_COMPRESS CONFIG_ZRAM_LZ4_COMPRESS : bool.

(** The comparison of lib/string.c that [zcomp_create] calls on the
    requested name and the name of a row; the code of this file is
    embedded for whatever it computes. *)
Variable sysfs_streq : string → string → bool.

(** The backends' code, reached through the function pointers of a handle:
    [int (*create)(struct zram_comp *)] and
    [void (*destroy)(struct zram_comp *)]. *)
Variable call_create : fn → ptr → kern Z.
Variable call_destroy : fn → ptr → kern unit.

Definition compressors : list zcomp :=
  (if CONFIG_ZRAM_LZO_COMPRESS
   then [Zcomp (Some "lzo") (Some zcomp_lzo_create) (Some zcomp_lzo_destroy)]
   else []) ++
  (if CONFIG_ZRAM_LZ4_COMPRESS
   then [Zcomp (Some "lz4") (Some zcomp_lz4_create) (Some zcomp_lz4_destroy)]
   else []) ++
  [Zcomp None None None].

Definition ARRAY_SIZE {A} (arr : list A) : nat := length arr.

(** free allocated workmem buffers and zram_comp *)
Definition zcomp_destroy (comp : ptr) : kern unit :=
  c <- load_comp comp ;;
  match comp_destroy c with
  | Some f => call_destroy f comp
  | None => kfault
  end ;;
  kfree comp.

(** The search loop of [zcomp_create], from index [i] with [n] rows to go:
    the index it stops at. A null name faults. *)
Fixpoint zcomp_create_loop (n i : nat) (compress : string) : option nat :=
  match n with
  | O => Some i
  | S n' =>
      match compressors !! i with
      | Some (Zcomp (Some name) _ _) =>
          if sysfs_streq compress name then Some i
          else zcomp_create_loop n' (S i) compress
      | _ => None
      end
  end.

(** search available compressors for requested algorithm.
    allocate new zram_comp and initialize it. return NULL
    if requested algorithm is not supported or in case
    of init error *)
Definition zcomp_create (compress : string) : kern ptr :=
  (* BUILD_BUG_ON(ARRAY_SIZE(compressors) == 1): a build with no backend
     does not compile; the code below does not rely on it *)
  match zcomp_create_loop (ARRAY_SIZE compressors - 1) 0 compress with
  | None => kfault
  | Some i =>
      (* nothing found *)
      if (i =? ARRAY_SIZE compressors - 1)%nat then kret NULL
      else
        comp <- kzalloc_comp ;;
        if is_null comp then kret NULL
        else
          match compressors !! i with
          | None => kfault
          | Some row =>
              c <- load_comp comp ;;
              store_comp comp (set_comp_name (zc_name row) c) ;;
              c <- load_comp comp ;;
              store_comp comp (set_comp_create (zc_create row) c) ;;
              c <- load_comp comp ;;
              store_comp comp (set_comp_destroy (zc_destroy row) c) ;;
              c <- load_comp comp ;;
              rc <- match comp_create c with
                    | Some f => call_create f comp
                    | None => kfault
                    end ;;
              if negb (rc =? 0)%Z then
                zcomp_destroy comp ;;
                kret NULL
              else kret comp
          end
  end.

(** The loop of [zcomp_available_show], from index [i] with [n] rows to go. *)
Fixpoint zcomp_available_show_loop (n i : nat) (comp : ptr) (buf : list ascii) (sz : Z)
  : kern (list ascii * Z) :=
  match n with
  | O => kret (buf, sz)
  | S n' =>
      match compressors !! i with
      | Some (Zcomp (Some name) _ _) =>
          active <- (if is_null comp then kret false
                     else
                       c <- load_comp comp ;;
                       match comp_name c with
                       | Some cname => kret (strcmp cname name =? 0)%Z
                       | None => kfault
                       end) ;;
          let r :=
            if (active : bool) then sprintf buf sz "<%s> " name
            else sprintf buf sz "%s " name in
          zcomp_available_show_loop n' (S i) comp r.1 (sz + r.2)%Z
      | _ => kfault
      end
  end.

(** show available compressors *)
Definition zcomp_available_show (comp : ptr) (buf : list ascii) : kern (list ascii * Z) :=
  r <- zcomp_available_show_loop (ARRAY_SIZE compressors - 1) 0 comp buf 0%Z ;;
  let r' := sprintf r.1 r.2 newline "" in
  kret (r'.1, (r.2 + r'.2)%Z).

(** The registry as the spec words it: a lookup of the first row whose
    name compares equal to the requested one, and the construction of a
    handle from the row found. [zcomp_create] is compared with these. *)
Definition row_matches (compress : string) (row : zcomp) : bool :=
  match zc_name row with
  | Some name => sysfs_streq compress name
  | None => false
  end.

Definition registry_find (compress : string) : option zcomp :=
  List.find (row_matches compress) compressors.

Definition new_handle (row : zcomp) : zram_comp :=
  Comp None None None None (zc_create row) (zc_destroy row) NULL (zc_name row).

Definition zcomp_create_from (row : zcomp) : kern ptr :=
  comp <- kzalloc_comp ;;
  if is_null comp then kret NULL
  else
    store_comp comp (new_handle row) ;;
    rc <- match zc_create row with
          | Some f => call_create f comp
          | None => kfault
          end ;;
    if negb (rc =? 0)%Z then
      zcomp_destroy comp ;;
      kret NULL
    else kret comp.

(** The names of the backends, in the order of the table. *)
Definition backend_names : list string := omap zc_name compressors.

(** The listing as the spec words it: every name followed by a space, the
    name of the active backend in angle brackets, and a newline at the
    end. *)
Definition show_name (active : option string) (name : string) : string :=
  match active with
  | Some cname => if String.eqb cname name then "<" +:+ name +:+ "> " else name +:+ " "
  | None => name +:+ " "
  end.

Definition listing (active : option string) : string :=
  foldr (λ name rest, show_name active name +:+ rest) newline backend_names.

End Registry.

(** The first [sz] bytes of the buffer are the text written so far. *)
Definition wrote (text : string) (buf : list ascii) (sz : Z) : Prop :=
  sz = Z.of_nat (String.length text) ∧
  take (String.length text) buf = list_ascii_of_string text.

(** A C string has no NUL in it. *)
Fixpoint nul_free (s : string) : bool :=
  match s with
  | EmptyString => true
  | String c rest => negb (Ascii.eqb c zero) && nul_free rest
  end.

(** The backend a handle pointer stands for in the listing: none for a
    null pointer, the name of a live handle otherwise. [None]: the pointer
    cannot be dereferenced, or the handle has no name. *)
Definition active_backend (comp : ptr) (m : kmem) : option (option string) :=
  match comp with
  | N0 => Some None
  | Npos a =>
      match heap m !! a with
      | Some (BComp c) =>
          match comp_name c with
          | Some cname => Some (Some cname)
          | None => None
          end
      | _ => None
      end
  end.

(** Backends for the examples: a constructor that sets up the default
    workmem policy and a destructor that has nothing to free when the set
    up has failed. *)
Definition example_create (f : fn) (comp : ptr) : kern Z :=
  r <- wm_policy_init 4096 22 64 ;;
  kret r.1.
Definition example_destroy (f : fn) (comp : ptr) : kern unit := kret tt.

(** What is in a buffer as a C string: the bytes before the first NUL. *)
Fixpoint c_str (buf : list ascii) : string :=
  match buf with
  | [] => EmptyString
  | c :: rest => if Ascii.eqb c zero then EmptyString else String c (c_str rest)
  end.

Example show_lz4_active :
  let m := Kmem {[ 1%positive := BComp (Comp None None None None (Some zcomp_lz4_create)
                                          (Some zcomp_lz4_destroy) NULL (Some "lz4")) ]} [] in
  zcomp_available_show true true 1%N (replicate 8 "x"%char) m =
  Some ((list_ascii_of_string ("lzo <lz4> " +:+ newline) ++ [zero], 11%Z), m).
Proof. vm_compute. reflexivity. Qed.

Example show_none_active :
  zcomp_available_show true true NULL [] (Kmem ∅ []) =
  Some ((list_ascii_of_string ("lzo lz4 " +:+ newline) ++ [zero], 9%Z), Kmem ∅ []).
Proof. vm_compute. reflexivity. Qed.

(** * Properties *)

(** ** Allocation and release *)

Lemma alloc_denied b m :
  granted (pressure m !! 0) = false →
  alloc b m = Some (NULL, Kmem (heap m) (tail (pressure m))).
Proof.
  unfold alloc. destruct (pressure m) as [|[] rest]; simpl; intros; congruence.
Qed.

Lemma alloc_granted b m :
  granted (pressure m !! 0) = true →
  ∃ a, heap m !! a = None ∧
       alloc b m = Some (Npos a, Kmem (<[a := b]> (heap m)) (tail (pressure m))).
Proof.
  intros Hg. exists (fresh (dom (heap m))). split.
  - apply not_elem_of_dom, is_fresh.
  - unfold alloc. destruct (pressure m) as [|[] rest]; simpl in *; congruence.
Qed.

Lemma tail_drop {A} (l : list A) n : tail (drop n l) = drop (S n) l.
Proof.
  revert l. induction n as [|n IH]; intros [|x l]; simpl; done.
Qed.

Lemma lookup_0_drop {A} (l : list A) n : drop n l !! 0 = l !! n.
Proof. rewrite lookup_drop. f_equal. lia. Qed.

(** Two memories with the same blocks at every address are the same. *)
Ltac same_heap :=
  unfold kret; do 3 f_equal; apply map_eq; intros ?;
  rewrite ?lookup_delete, ?lookup_insert; repeat case_decide; congruence.

(** Stepping through kernel code on a memory of known shape. *)
Ltac run_kern :=
  repeat first
    [ rewrite lookup_insert_eq
    | rewrite lookup_insert_ne by done
    | rewrite tail_drop
    | progress simpl
    | progress unfold workmem_free, kbind, vfree, kfree, release ].

Ltac fresh_address a H :=
  repeat match type of H with
  | <[?b := _]> _ !! a = None =>
      assert (b ≠ a) by (intros ->; by rewrite lookup_insert_eq in H);
      rewrite lookup_insert_ne in H by done
  end.

Ltac next_alloc_granted a H :=
  match goal with |- context [alloc ?b ?m] =>
    let E := fresh "E" in
    destruct (alloc_granted b m) as (a & H & E);
    [ by simpl; rewrite lookup_0_drop
    | simpl in H, E; rewrite E; clear E; fresh_address a H ]
  end.

Ltac next_alloc_denied :=
  match goal with |- context [alloc ?b ?m] =>
    rewrite (alloc_denied b m) by (by simpl; rewrite lookup_0_drop)
  end.

(** The three outcomes of [workmem_alloc]: no structure; a structure but
    not both regions, and then everything is given back; a complete unit. *)
Lemma workmem_alloc_cases PAGE_SIZE sz m :
  let p := pressure m in
  (granted (p !! 0) = false ∧
   workmem_alloc PAGE_SIZE sz m = Some (NULL, Kmem (heap m) (drop 1 p)))
  ∨ (granted (p !! 0) = true ∧
     (granted (p !! 1) = false ∨ granted (p !! 2) = false) ∧
     workmem_alloc PAGE_SIZE sz m = Some (NULL, Kmem (heap m) (drop 3 p)))
  ∨ (granted (p !! 0) = true ∧ granted (p !! 1) = true ∧ granted (p !! 2) = true ∧
     ∃ w mem buf,
       heap m !! w = None ∧ heap m !! mem = None ∧ heap m !! buf = None ∧
       w ≠ mem ∧ w ≠ buf ∧ mem ≠ buf ∧
       workmem_alloc PAGE_SIZE sz m =
       Some (Npos w,
             Kmem (<[w := BWorkmem (Workmem (Npos mem) (Npos buf))]>
                     (<[buf := BVmalloc (2 * PAGE_SIZE)]>
                        (<[mem := BVmalloc sz]> (heap m))))
                  (drop 3 p))).
Proof.
  intros p. subst p. destruct m as [h p]. simpl.
  destruct (granted (p !! 0)) eqn:G0.
  2:{ left. split; [done|]. unfold workmem_alloc, kmalloc_workmem, kbind.
      rewrite alloc_denied by done. simpl. by destruct p. }
  right.
  destruct (alloc_granted (BWorkmem (Workmem NULL NULL)) (Kmem h p) G0) as (w & Hw & Ew).
  simpl in Hw, Ew.
  unfold workmem_alloc, kmalloc_workmem, vmalloc, kbind. rewrite Ew. simpl.
  assert (T1 : tail p = drop 1 p) by (by destruct p).
  rewrite T1. clear Ew.
  destruct (granted (p !! 1)) eqn:G1; destruct (granted (p !! 2)) eqn:G2.
  - (* both regions *)
    right. do 3 (split; [done|]).
    next_alloc_granted mem Hmem. run_kern.
    next_alloc_granted buf Hbuf. run_kern.
    exists w, mem, buf. do 6 (split; [done|]). same_heap.
  - (* no output region *)
    left. split; [done|]. split; [by right|].
    next_alloc_granted mem Hmem. run_kern.
    next_alloc_denied. run_kern. same_heap.
  - (* no scratch region *)
    left. split; [done|]. split; [by left|].
    next_alloc_denied. run_kern.
    next_alloc_granted buf Hbuf. run_kern. same_heap.
  - (* neither *)
    left. split; [done|]. split; [by left|].
    next_alloc_denied. run_kern.
    next_alloc_denied. run_kern. same_heap.
Qed.

(** C5. When [workmem_alloc] has its structure and fails to get the scratch
    region or the output region, it returns NULL after both [vmalloc]
    requests, and memory holds exactly the allocations it held before the
    call: the region it did get and the structure have been released. *)
Theorem workmem_alloc_partial_failure (PAGE_SIZE sz : Z) (m : kmem) :
  granted (pressure m !! 0) = true →
  granted (pressure m !! 1) = false ∨ granted (pressure m !! 2) = false →
  workmem_alloc PAGE_SIZE sz m = Some (NULL, Kmem (heap m) (drop 3 (pressure m))).
Proof.
  intros G0 G12.
  destruct (workmem_alloc_cases PAGE_SIZE sz m) as [[G _]|[(_ & _ & E)|(_ & G1 & G2 & _)]].
  - congruence.
  - exact E.
  - destruct G12; congruence.
Qed.

Lemma workmem_alloc_partial_failure_witness :
  workmem_alloc 4096 64 (Kmem {[ 9%positive := BVmalloc 16 ]} [true; false; true; true]) =
  Some (NULL, Kmem {[ 9%positive := BVmalloc 16 ]} [true]).
Proof.
  refine (workmem_alloc_partial_failure 4096 64
            (Kmem {[ 9%positive := BVmalloc 16 ]} [true; false; true; true]) _ _).
  - reflexivity.
  - left. reflexivity.
Defined.

(** The two outcomes of [wm_policy_init]: an error and an empty pool when
    a request is denied, a pool of one new unit otherwise. *)
Lemma wm_policy_init_cases (PAGE_SIZE EINVAL sz : Z) (m : kmem) :
  let p := pressure m in
  ((granted (p !! 0) = false ∨ granted (p !! 1) = false ∨ granted (p !! 2) = false) ∧
   ∃ rest,
     wm_policy_init PAGE_SIZE EINVAL sz m =
     Some (((- EINVAL)%Z, Policy false [] []), Kmem (heap m) rest))
  ∨ (granted (p !! 0) = true ∧ granted (p !! 1) = true ∧ granted (p !! 2) = true ∧
     ∃ w mem buf,
       heap m !! w = None ∧ heap m !! mem = None ∧ heap m !! buf = None ∧
       w ≠ mem ∧ w ≠ buf ∧ mem ≠ buf ∧
       wm_policy_init PAGE_SIZE EINVAL sz m =
       Some ((0%Z, Policy false [Npos w] []),
             Kmem (<[w := BWorkmem (Workmem (Npos mem) (Npos buf))]>
                     (<[buf := BVmalloc (2 * PAGE_SIZE)]>
                        (<[mem := BVmalloc sz]> (heap m))))
                  (drop 3 p))).
Proof.
  intros p. subst p. unfold wm_policy_init, kbind.
  destruct (workmem_alloc_cases PAGE_SIZE sz m)
    as [[G0 E]|[(G0 & G12 & E)|(G0 & G1 & G2 & w & mem & buf & Hw & Hm & Hb & N1 & N2 & N3 & E)]];
    rewrite E; simpl.
  - left. split; [by left|]. by eexists.
  - left. split; [right; exact G12|]. by eexists.
  - right. do 3 (split; [done|]). by exists w, mem, buf.
Qed.

(** C4. [wm_policy_init] with all three requests granted returns 0 with
    exactly one unit in the idle list, a new structure whose scratch
    region has the requested size and whose output region has twice the
    page size, and nothing else allocated; with a request denied it
    returns -EINVAL, an error code, with an empty pool and memory as it
    was; so it never returns 0 with a pool of no unit. *)
Theorem wm_policy_init_one_unit (PAGE_SIZE EINVAL sz : Z) (m : kmem) :
  EINVAL ≠ 0%Z →
  let p := pressure m in
  (granted (p !! 0) = true → granted (p !! 1) = true → granted (p !! 2) = true →
   ∃ w mem buf,
     heap m !! w = None ∧ heap m !! mem = None ∧ heap m !! buf = None ∧
     w ≠ mem ∧ w ≠ buf ∧ mem ≠ buf ∧
     wm_policy_init PAGE_SIZE EINVAL sz m =
     Some ((0%Z, Policy false [Npos w] []),
           Kmem (<[w := BWorkmem (Workmem (Npos mem) (Npos buf))]>
                   (<[buf := BVmalloc (2 * PAGE_SIZE)]>
                      (<[mem := BVmalloc sz]> (heap m))))
                (drop 3 p)))
  ∧ (granted (p !! 0) = false ∨ granted (p !! 1) = false ∨ granted (p !! 2) = false →
     ∃ rest,
       wm_policy_init PAGE_SIZE EINVAL sz m =
       Some (((- EINVAL)%Z, Policy false [] []), Kmem (heap m) rest))
  ∧ (∀ rc policy m',
       wm_policy_init PAGE_SIZE EINVAL sz m = Some ((rc, policy), m') →
       (rc = 0%Z ∨ rc = (- EINVAL)%Z) ∧
       (rc = 0%Z → length (idle_workmem policy) = 1)).
Proof.
  intros HE p. subst p.
  destruct (wm_policy_init_cases PAGE_SIZE EINVAL sz m)
    as [(Hden & rest & E)|(G0 & G1 & G2 & w & mem & buf & Hfresh)].
  - split; [|split].
    + intros G0 G1 G2. destruct Hden as [?|[?|?]]; congruence.
    + intros _. by exists rest.
    + intros rc policy m'. rewrite E. intros [= <- <- <-].
      split; [by right|]. lia.
  - split; [|split].
    + intros _ _ _. by exists w, mem, buf.
    + intros [?|[?|?]]; congruence.
    + destruct Hfresh as (_ & _ & _ & _ & _ & _ & E).
      intros rc policy m'. rewrite E. intros [= <- <- <-].
      split; [by left|]. done.
Qed.

Lemma wm_policy_init_one_unit_witness :
  (22 ≠ 0)%Z ∧
  ∃ w mem buf,
    (∅ : gmap positive block) !! w = None ∧
    (∅ : gmap positive block) !! mem = None ∧
    (∅ : gmap positive block) !! buf = None ∧
    w ≠ mem ∧ w ≠ buf ∧ mem ≠ buf ∧
    wm_policy_init 4096 22 64 (Kmem ∅ []) =
    Some ((0%Z, Policy false [Npos w] []),
          Kmem (<[w := BWorkmem (Workmem (Npos mem) (Npos buf))]>
                  (<[buf := BVmalloc (2 * 4096)]> (<[mem := BVmalloc 64]> ∅)))
               []).
Proof.
  assert (H : (22 ≠ 0)%Z) by discriminate.
  split; [exact H|].
  refine (proj1 (wm_policy_init_one_unit 4096 22 64 (Kmem ∅ []) H) _ _ _); reflexivity.
Defined.

(** ** The pool under interleaving *)

Lemma list_del_head (w : ptr) (l : list ptr) : list_del w (w :: l) = l.
Proof. simpl. by rewrite N.eqb_refl. Qed.

Lemma list_del_Permutation (w : ptr) (l : list ptr) :
  w ∈ l → w :: list_del w l ≡ₚ l.
Proof.
  induction l as [|e l IH]; intros Hin; [by apply elem_of_nil in Hin|].
  simpl. destruct (N.eqb_spec e w) as [->|Hne]; [done|].
  apply elem_of_cons in Hin as [->|Hin]; [done|].
  rewrite Permutation_swap. by rewrite IH.
Qed.

(** Waking a thread changes neither where it is nor what it holds. *)
Lemma checked_out_wake woken ths : checked_out (wake woken ths) = checked_out ths.
Proof.
  destruct woken as [u|]; [|done]. simpl. unfold checked_out.
  revert u. induction ths as [|th ths IH]; intros [|u]; simpl; try done.
  f_equal. apply IH.
Qed.

Lemma lookup_wake woken ths t x :
  wake woken ths !! t = Some x →
  ∃ x0, ths !! t = Some x0 ∧ pc x = pc x0 ∧ held x = held x0.
Proof.
  destruct woken as [u|]; simpl; [|by eauto].
  destruct (decide (u = t)) as [->|Hne].
  - rewrite list_lookup_alter_eq. destruct (ths !! t) as [x0|]; simpl; [|done].
    intros [= <-]. by exists x0.
  - rewrite list_lookup_alter_ne by done. by eauto.
Qed.


(** A step, seen from the table of threads. *)
Lemma sys_step_inv t a s s' :
  sys_step t a s = Some s' →
  ∃ th policy th' woken,
    threads s !! t = Some th ∧
    exec t a (pol s) th = Some (policy, th', woken) ∧
    s' = System policy (wake woken (<[t := th']> (threads s))).
Proof.
  unfold sys_step. destruct (threads s !! t) as [th|] eqn:Ht; [|done].
  destruct (exec t a (pol s) th) as [[[policy th'] woken]|] eqn:He; [|done].
  intros [= <-]. by exists th, policy, th', woken.
Qed.

Lemma lookup_after_step (t : tid) th' woken ths (t0 : tid) x :
  wake woken (<[t := th']> ths) !! t0 = Some x →
  (t0 = t ∧ pc x = pc th' ∧ held x = held th') ∨
  (t0 ≠ t ∧ ∃ x0, ths !! t0 = Some x0 ∧ pc x = pc x0 ∧ held x = held x0).
Proof.
  intros (x0 & Hl & Hpc & Hheld)%lookup_wake.
  destruct (decide (t0 = t)) as [->|Hne].
  - left. apply list_lookup_insert_Some in Hl as [(_ & -> & _)|(? & _)]; done.
  - right. rewrite list_lookup_insert_ne in Hl by done. eauto.
Qed.

(** What one statement does to the units: they move between the idle list
    and the thread, none appears and none is lost. *)
Lemma exec_conserves t a policy th policy' th' woken :
  exec t a policy th = Some (policy', th', woken) →
  pc th ≠ GetNull →
  idle_workmem policy' ++ owned th' ≡ₚ idle_workmem policy ++ owned th.
Proof.
  destruct policy as [lock idle wait], th as [l hs st].
  unfold exec, owned; simpl. intros He Hnull.
  destruct l, a; simpl in He; try done;
    repeat case_match; simplify_eq; simpl; rewrite ?app_nil_r; try done.
  - (* CallPut *)
    apply Permutation_app_head. apply list_del_Permutation. by eapply bool_decide_eq_true_1.
  - (* GetTake *)
    rewrite N.eqb_refl. by rewrite <- Permutation_middle.
  - (* PutAdd *)
    unfold list_add_tail. rewrite <- app_assoc. done.
Qed.

(** What one statement does to the lock, and where it may change the list. *)
Lemma exec_lock t a policy th policy' th' woken :
  exec t a policy th = Some (policy', th', woken) →
  (in_critical (pc th) = false → in_critical (pc th') = true →
   buffer_lock policy = false ∧ buffer_lock policy' = true) ∧
  (in_critical (pc th) = in_critical (pc th') →
   buffer_lock policy' = buffer_lock policy) ∧
  (in_critical (pc th) = false → idle_workmem policy' = idle_workmem policy) ∧
  (pc th' = GetTake → idle_workmem policy' ≠ []) ∧
  (pc th' = Fault → pc th = GetTake ∧ idle_workmem policy = []) ∧
  pc th' ≠ GetNull.
Proof.
  destruct policy as [lock idle wait], th as [l hs st].
  unfold exec; simpl. intros He.
  destruct l, a; simpl in He; try done;
    repeat case_match; simplify_eq; simpl; repeat split; try done;
    try (intros; discriminate).
  all: try (intros _; by destruct idle).
Qed.

(** The invariant of the lock: a thread between spin_lock and spin_unlock
    has the lock, there is one such thread at most, the list is not empty
    when a thread is about to take its first node, and no thread is at the
    statement after the if, nor has faulted. *)
Record lock_inv (s : system) : Prop := LockInv {
  critical_locked : ∀ t th,
    threads s !! t = Some th → in_critical (pc th) = true → buffer_lock (pol s) = true;
  critical_unique : ∀ t t' th th',
    threads s !! t = Some th → threads s !! t' = Some th' →
    in_critical (pc th) = true → in_critical (pc th') = true → t = t';
  take_nonempty : ∀ t th,
    threads s !! t = Some th → pc th = GetTake → idle_workmem (pol s) ≠ [];
  no_fault : ∀ t th,
    threads s !! t = Some th → pc th ≠ Fault ∧ pc th ≠ GetNull
}.

Lemma lock_inv_init units n : lock_inv (pool_init units n).
Proof.
  split; simpl; intros *.
  - intros [-> _]%lookup_replicate. done.
  - intros [-> _]%lookup_replicate. done.
  - intros [-> _]%lookup_replicate. done.
  - intros [-> _]%lookup_replicate. done.
Qed.

Lemma lock_inv_step t a s s' :
  sys_step t a s = Some s' → lock_inv s → lock_inv s'.
Proof.
  intros (th & policy & th' & woken & Ht & He & ->)%sys_step_inv [I1 I2 I3 I4].
  destruct (exec_lock _ _ _ _ _ _ _ He) as (Hacq & Hsame & Hidle & Htake & Hfault & Hnull).
  split; simpl.
  - intros t0 x [(-> & Hpc & _)|(Hne & x0 & Hx0 & Hpc & _)]%lookup_after_step Hc;
      rewrite Hpc in Hc.
    + destruct (in_critical (pc th)) eqn:Hth.
      * rewrite Hsame by congruence. eauto.
      * by apply Hacq.
    + destruct (in_critical (pc th)) eqn:Hth.
      * by specialize (I2 _ _ _ _ Ht Hx0 Hth Hc).
      * destruct (in_critical (pc th')) eqn:Hth'.
        -- destruct Hacq as [Hl _]; [done..|]. rewrite (I1 _ _ Hx0 Hc) in Hl. done.
        -- rewrite Hsame by congruence. eauto.
  - intros t1 t2 x1 x2
      [(-> & Hpc1 & _)|(Hne1 & y1 & Hy1 & Hpc1 & _)]%lookup_after_step
      [(-> & Hpc2 & _)|(Hne2 & y2 & Hy2 & Hpc2 & _)]%lookup_after_step Hc1 Hc2;
      rewrite ?Hpc1 in Hc1; rewrite ?Hpc2 in Hc2; try done.
    + destruct (in_critical (pc th)) eqn:Hth.
      * by specialize (I2 _ _ _ _ Ht Hy2 Hth Hc2).
      * destruct Hacq as [Hl _]; [done..|]. rewrite (I1 _ _ Hy2 Hc2) in Hl. done.
    + destruct (in_critical (pc th)) eqn:Hth.
      * by specialize (I2 _ _ _ _ Ht Hy1 Hth Hc1).
      * destruct Hacq as [Hl _]; [done..|]. rewrite (I1 _ _ Hy1 Hc1) in Hl. done.
    + eauto.
  - intros t0 x [(-> & Hpc & _)|(Hne & x0 & Hx0 & Hpc & _)]%lookup_after_step Hc;
      rewrite Hpc in Hc.
    + by apply Htake.
    + assert (Hx0c : in_critical (pc x0) = true) by (by rewrite Hc).
      destruct (in_critical (pc th)) eqn:Hth.
      * by specialize (I2 _ _ _ _ Ht Hx0 Hth Hx0c).
      * rewrite Hidle by done. eauto.
  - intros t0 x [(-> & Hpc & _)|(Hne & x0 & Hx0 & Hpc & _)]%lookup_after_step;
      rewrite Hpc.
    + split; [|done]. intros [Hp Hi]%Hfault. by apply (I3 _ _ Ht Hp).
    + eauto.
Qed.

Lemma checked_out_insert ths (t : tid) th th' :
  ths !! t = Some th →
  ∃ A B, checked_out ths = A ++ owned th ++ B ∧
         checked_out (<[t := th']> ths) = A ++ owned th' ++ B.
Proof.
  intros Ht.
  exists (checked_out (take t ths)), (checked_out (drop (S t) ths)).
  unfold checked_out. split.
  - rewrite <- (take_drop_middle ths t th) at 1 by done.
    by rewrite flat_map_app.
  - rewrite insert_take_drop by (by eapply lookup_lt_Some).
    by rewrite flat_map_app.
Qed.

Lemma units_step t a s s' :
  sys_step t a s = Some s' → lock_inv s → all_units s' ≡ₚ all_units s.
Proof.
  intros (th & policy & th' & woken & Ht & He & ->)%sys_step_inv Hinv.
  unfold all_units. cbn [pol threads]. rewrite checked_out_wake.
  pose proof (exec_conserves _ _ _ _ _ _ _ He (proj2 (no_fault _ Hinv _ _ Ht))) as Hc.
  destruct (checked_out_insert _ _ _ th' Ht) as (A & B & -> & ->).
  rewrite !(Permutation_app_comm A), !app_assoc. by rewrite Hc.
Qed.

Lemma run_inv sched s s' :
  run sched s = Some s' → lock_inv s →
  lock_inv s' ∧ all_units s' ≡ₚ all_units s.
Proof.
  revert s. induction sched as [|[t a] sched IH]; simpl; intros s.
  - intros [= <-]. done.
  - destruct (sys_step t a s) as [s1|] eqn:Hs; [|done].
    intros Hr Hinv.
    destruct (IH _ Hr (lock_inv_step _ _ _ _ Hs Hinv)) as [? Hu].
    split; [done|]. rewrite Hu. by eapply units_step.
Qed.

Lemma all_units_init units n : all_units (pool_init units n) = units.
Proof.
  unfold all_units, checked_out; simpl.
  assert (flat_map owned (replicate n fresh_thread) = []) as ->.
  { induction n; simpl; done. }
  apply app_nil_r.
Qed.

Lemma holders_from_spec i ths w t :
  t ∈ holders_from i ths w ↔
  ∃ th, i ≤ t ∧ ths !! (t - i) = Some th ∧ w ∈ owned th.
Proof.
  revert i. induction ths as [|th0 ths IH]; intros i; simpl.
  - split; [by intros ?%elem_of_nil|]. by intros (? & _ & ? & _).
  - rewrite elem_of_app, IH. split.
    + intros [Hin|(th & Hle & Hl & Hw)].
      * case_bool_decide; [|by apply elem_of_nil in Hin].
        apply list_elem_of_singleton in Hin as ->.
        exists th0. by rewrite Nat.sub_diag.
      * exists th. split; [lia|]. split; [|done].
        by replace (t - i) with (S (t - S i)) by lia.
    + intros (th & Hle & Hl & Hw).
      destruct (decide (t = i)) as [->|Hne].
      * left. rewrite Nat.sub_diag in Hl. simplify_eq/=.
        rewrite bool_decide_eq_true_2 by done. by apply list_elem_of_singleton.
      * right. exists th. split; [lia|]. split; [|done].
        by replace (t - i) with (S (t - S i)) in Hl by lia.
Qed.

(** [holders s w] lists exactly the threads that have [w]. *)
Lemma elem_of_holders s w t :
  t ∈ holders s w ↔ ∃ th, threads s !! t = Some th ∧ w ∈ owned th.
Proof.
  unfold holders. rewrite holders_from_spec. rewrite Nat.sub_0_r.
  split; [intros (th & _ & ? & ?)|intros (th & ? & ?)]; exists th; auto with lia.
Qed.

Lemma holders_from_none i ths w :
  w ∉ checked_out ths → holders_from i ths w = [].
Proof.
  revert i. induction ths as [|th ths IH]; intros i; simpl; [done|].
  rewrite elem_of_app. intros Hn.
  rewrite bool_decide_eq_false_2 by tauto. simpl. apply IH. tauto.
Qed.

Lemma holders_from_one i ths w :
  NoDup (checked_out ths) → w ∈ checked_out ths →
  ∃ t, holders_from i ths w = [t].
Proof.
  revert i. induction ths as [|th ths IH]; intros i; simpl.
  - by intros _ ?%elem_of_nil.
  - intros (Hth & Hdisj & Hrest)%NoDup_app [Hin|Hin]%elem_of_app.
    + exists i. rewrite bool_decide_eq_true_2 by done.
      rewrite holders_from_none; [done|]. by apply Hdisj.
    + rewrite bool_decide_eq_false_2; [by apply IH|].
      intros Hw. by apply (Hdisj _ Hw).
Qed.

(** C1. On a pool of distinct units and any number of callers, after any
    interleaving of the statements of [wm_policy_workmem_get] and
    [wm_policy_workmem_put], every unit is either in the idle list and in
    no caller's hands, or out of the idle list and in the hands of exactly
    one caller; and no unit is twice in the system. *)
Theorem workmem_mutual_exclusion (units : list ptr) (n : nat) (sched : schedule) (s : system) :
  NoDup units →
  run sched (pool_init units n) = Some s →
  NoDup (all_units s) ∧
  (∀ w, w ∈ units →
    (w ∈ idle_workmem (pol s) ∧ holders s w = []) ∨
    ((w ∉ idle_workmem (pol s)) ∧ ∃ t, holders s w = [t])).
Proof.
  intros Hnd Hrun.
  destruct (run_inv _ _ _ Hrun (lock_inv_init units n)) as [_ Hperm].
  rewrite all_units_init in Hperm.
  assert (Hnd' : NoDup (all_units s)) by (by rewrite Hperm).
  split; [done|]. intros w Hw.
  rewrite <- Hperm in Hw. unfold all_units in Hw, Hnd'.
  apply NoDup_app in Hnd' as (_ & Hdisj & Hco).
  apply elem_of_app in Hw as [Hidle|Hout].
  - left. split; [done|]. apply holders_from_none. by apply Hdisj.
  - right. split.
    + intros Hidle. by apply (Hdisj _ Hidle).
    + by apply holders_from_one.
Qed.

Lemma workmem_mutual_exclusion_witness :
  let s := System (Policy true [] [])
             [Thread User [7%N] TASK_RUNNING; Thread GetTest [] TASK_RUNNING] in
  NoDup (all_units s) ∧
  (∀ w, w ∈ [7%N] →
    (w ∈ idle_workmem (pol s) ∧ holders s w = []) ∨
    ((w ∉ idle_workmem (pol s)) ∧ ∃ t, holders s w = [t])).
Proof.
  refine (workmem_mutual_exclusion [7%N] 2
            [(0, CallGet); (1, CallGet); (0, Run); (0, Run); (0, Run);
             (0, Run); (1, Run); (0, Run)] _ _ _).
  - apply NoDup_singleton.
  - reflexivity.
Defined.

(** C9. After a successful [wm_policy_init], whatever the callers do with
    [wm_policy_workmem_get] and [wm_policy_workmem_put], the units of the
    pool, idle or checked out, are the one unit allocated at
    initialisation: the calls move it and never destroy it, so the pool
    never has less than one unit. *)
Theorem pool_keeps_its_unit (PAGE_SIZE EINVAL sz : Z) (m m' : kmem)
    (policy : zcomp_wm_policy) (n : nat) (sched : schedule) (s : system) :
  EINVAL ≠ 0%Z →
  wm_policy_init PAGE_SIZE EINVAL sz m = Some ((0%Z, policy), m') →
  run sched (System policy (replicate n fresh_thread)) = Some s →
  ∃ w mem buf,
    idle_workmem policy = [Npos w] ∧
    heap m' !! w = Some (BWorkmem (Workmem (Npos mem) (Npos buf))) ∧
    all_units s = [Npos w] ∧
    1 ≤ length (all_units s).
Proof.
  intros HE Hinit Hrun.
  destruct (wm_policy_init_cases PAGE_SIZE EINVAL sz m)
    as [(_ & rest & E)|(_ & _ & _ & w & mem & buf & _ & _ & _ & _ & _ & _ & E)];
    rewrite E in Hinit.
  - injection Hinit as ? _ _. lia.
  - injection Hinit as <- <-.
    exists w, mem, buf. split; [done|]. split; [apply lookup_insert_eq|].
    destruct (run_inv _ _ _ Hrun (lock_inv_init [Npos w] n)) as [_ Hperm].
    pose proof (all_units_init [Npos w] n) as Hi. unfold pool_init in Hi.
    rewrite Hi in Hperm.
    apply Permutation_singleton_r in Hperm. rewrite Hperm. done.
Qed.

Lemma pool_keeps_its_unit_witness :
  ∃ w mem buf,
    idle_workmem (Policy false [1%N] []) = [Npos w] ∧
    ({[ 1%positive := BWorkmem (Workmem 2%N 3%N);
        2%positive := BVmalloc 64;
        3%positive := BVmalloc 8192 ]} : gmap positive block) !! w =
      Some (BWorkmem (Workmem (Npos mem) (Npos buf))) ∧
    all_units (System (Policy false [] [])
                 [Thread (GetReturn 1%N) [] TASK_RUNNING; Thread User [] TASK_RUNNING])
      = [Npos w] ∧
    1 ≤ length (all_units (System (Policy false [] [])
                 [Thread (GetReturn 1%N) [] TASK_RUNNING; Thread User [] TASK_RUNNING])).
Proof.
  assert (H : (22 ≠ 0)%Z) by discriminate.
  refine (pool_keeps_its_unit 4096 22 64 (Kmem ∅ [])
            (Kmem {[ 1%positive := BWorkmem (Workmem 2%N 3%N);
                     2%positive := BVmalloc 64;
                     3%positive := BVmalloc 8192 ]} [])
            (Policy false [1%N] []) 2
            [(0, CallGet); (0, Run); (0, Run); (0, Run); (0, Run)] _ H _ _).
  - reflexivity.
  - reflexivity.
Defined.

(** ** Calls that run alone *)

Lemma sys_step_at (t : tid) a s th policy th' woken :
  threads s !! t = Some th →
  exec t a (pol s) th = Some (policy, th', woken) →
  sys_step t a s = Some (System policy (wake woken (<[t := th']> (threads s)))).
Proof. intros Ht He. unfold sys_step. by rewrite Ht, He. Qed.

Lemma finish_step fuel (t : tid) s th policy th' woken :
  threads s !! t = Some th → pc th ≠ User →
  exec t Run (pol s) th = Some (policy, th', woken) →
  finish (S fuel) t s =
  finish fuel t (System policy (wake woken (<[t := th']> (threads s)))).
Proof.
  intros Ht Hpc He. simpl. rewrite Ht.
  rewrite (sys_step_at _ _ _ _ _ _ _ Ht He). by destruct (pc th).
Qed.

Lemma finish_done fuel (t : tid) s th :
  threads s !! t = Some th → pc th = User → finish (S fuel) t s = Some s.
Proof. intros Ht Hpc. simpl. by rewrite Ht, Hpc. Qed.

Lemma finish_blocked fuel (t : tid) s th :
  threads s !! t = Some th → pc th ≠ User →
  sys_step t Run s = None → finish fuel t s = None.
Proof.
  intros Ht Hpc Hs. destruct fuel; simpl; [done|].
  rewrite Ht, Hs. by destruct (pc th).
Qed.

Lemma call_step (t : tid) a s th policy th' woken :
  threads s !! t = Some th →
  exec t a (pol s) th = Some (policy, th', woken) →
  call t a s = finish 16 t (System policy (wake woken (<[t := th']> (threads s)))).
Proof. intros Ht He. unfold call. by rewrite (sys_step_at _ _ _ _ _ _ _ Ht He). Qed.

Ltac lookup_self Hlt :=
  cbn [threads pol wake];
  first [ eassumption
        | apply list_lookup_insert_eq; rewrite ?length_insert; exact Hlt ].

Ltac exec_stmt :=
  cbv [exec prepare_to_wait_exclusive finish_wait wake_up waitqueue_active
       list_empty list_add_tail negb pc held state pol
       buffer_lock idle_workmem workmem_wait];
  cbn [list_del]; rewrite ?N.eqb_refl; reflexivity.

Ltac run_stmt Hlt :=
  erewrite finish_step;
  [ | lookup_self Hlt | cbn [pc]; discriminate | exec_stmt ];
  cbn [threads pol wake]; rewrite ?list_insert_insert_eq.

Ltac run_return Hlt :=
  erewrite finish_done; [ | lookup_self Hlt | reflexivity ].

(** With the lock free and a unit idle, [wm_policy_workmem_get] returns the
    unit at the head of the idle list and unlinks it. *)
Lemma get_returns_head (t : tid) s th w rest :
  threads s !! t = Some th → pc th = User →
  buffer_lock (pol s) = false → idle_workmem (pol s) = w :: rest →
  wm_policy_workmem_get t s =
  Some (w, System (Policy false rest (workmem_wait (pol s)))
             (<[t := Thread User (w :: held th) (state th)]> (threads s))).
Proof.
  destruct s as [[lock idle q] ths], th as [l hs st]; simpl.
  intros Ht -> -> ->.
  assert (Hlt : t < length ths) by (by eapply lookup_lt_Some).
  unfold wm_policy_workmem_get.
  erewrite call_step; [ | eassumption | reflexivity ]. cbn [threads pol wake].
  do 5 run_stmt Hlt. run_return Hlt.
  cbn [threads]. rewrite list_lookup_insert_eq by done. done.
Qed.

Lemma lookup_wake_same woken ths t th :
  ths !! t = Some th →
  ∃ th', wake woken ths !! t = Some th' ∧ pc th' = pc th ∧ held th' = held th.
Proof.
  intros Ht. destruct woken as [u|]; simpl; [|by eauto].
  destruct (decide (u = t)) as [->|Hne].
  - rewrite list_lookup_alter_eq, Ht. simpl. by eauto.
  - rewrite list_lookup_alter_ne by done. by eauto.
Qed.

(** With the lock free, [wm_policy_workmem_put] returns; it has linked the
    unit at the tail of the idle list and woken the first waiter. *)
Lemma put_appends (t : tid) s th w :
  threads s !! t = Some th → pc th = User → w ∈ held th →
  buffer_lock (pol s) = false →
  wm_policy_workmem_put t w s =
  Some (System (Policy false (idle_workmem (pol s) ++ [w]) (tail (workmem_wait (pol s))))
          (wake (head (workmem_wait (pol s)))
             (<[t := Thread User (list_del w (held th)) (state th)]> (threads s)))).
Proof.
  destruct s as [[lock idle q] ths], th as [l hs st]; simpl.
  intros Ht -> Hw ->.
  assert (Hlt : t < length ths) by (by eapply lookup_lt_Some).
  unfold wm_policy_workmem_put.
  erewrite call_step;
    [ | eassumption
      | unfold exec; cbn [pc held]; rewrite bool_decide_eq_true_2 by done; reflexivity ].
  cbn [threads pol wake].
  do 3 run_stmt Hlt.
  destruct q as [|u q].
  - run_stmt Hlt. run_return Hlt. done.
  - do 2 run_stmt Hlt. cbn [wake_up head tail].
    destruct (lookup_wake_same (Some u)
                (<[t := Thread User (list_del w hs) st]> ths) t
                (Thread User (list_del w hs) st)) as (th' & Hl & Hpc & _).
    { by apply list_lookup_insert_eq. }
    by erewrite finish_done.
Qed.

Ltac run_sched Hlt :=
  cbn [run replicate];
  erewrite sys_step_at;
  [ | lookup_self Hlt | exec_stmt ];
  cbn [threads pol wake]; rewrite ?list_insert_insert_eq.

(** With the lock free and no unit idle, the caller queues itself and
    goes to sleep: it is at [schedule()], not runnable. *)
Lemma get_suspends (t : tid) s th :
  threads s !! t = Some th → pc th = User →
  buffer_lock (pol s) = false → idle_workmem (pol s) = [] →
  let q := (prepare_to_wait_exclusive (workmem_wait (pol s)) t).1 in
  let s1 := System (Policy false [] q)
              (<[t := Thread GetSchedule (held th) TASK_UNINTERRUPTIBLE]> (threads s)) in
  run ((t, CallGet) :: replicate 5 (t, Run)) s = Some s1 ∧
  sys_step t Run s1 = None ∧
  wm_policy_workmem_get t s = None.
Proof.
  destruct s as [[lock idle q] ths], th as [l hs st]; simpl.
  intros Ht -> -> ->.
  assert (Hlt : t < length ths) by (by eapply lookup_lt_Some).
  split; [|split].
  - do 6 run_sched Hlt. done.
  - unfold sys_step. cbn [threads]. by rewrite list_lookup_insert_eq.
  - unfold wm_policy_workmem_get.
    erewrite call_step; [ | eassumption | reflexivity ]. cbn [threads pol wake].
    do 5 run_stmt Hlt.
    erewrite finish_blocked; [done|by apply list_lookup_insert_eq|discriminate|].
    unfold sys_step. cbn [threads]. by rewrite list_lookup_insert_eq.
Qed.

(** A waiter that has been woken leaves the queue and goes back to the
    lock and the test of the list: it does not return from there. *)
Lemma get_retries (t : tid) s th :
  threads s !! t = Some th → pc th = GetSchedule → state th = TASK_RUNNING →
  run [(t, Run); (t, Run)] s =
  Some (System (Policy (buffer_lock (pol s)) (idle_workmem (pol s))
                  (finish_wait (workmem_wait (pol s)) t).1)
          (<[t := Thread GetLock (held th) TASK_RUNNING]> (threads s))).
Proof.
  destruct s as [[lock idle q] ths], th as [l hs st]; simpl.
  intros Ht -> ->.
  assert (Hlt : t < length ths) by (by eapply lookup_lt_Some).
  do 2 run_sched Hlt. done.
Qed.

(** C2. In every state the callers can reach from a pool of non-null
    units, no thread is at the [return NULL] that ends
    [wm_policy_workmem_get], none has taken a node from an empty list, and
    no caller holds NULL. From such a state a call that runs alone with
    the lock free returns the head of the idle list, unlinked, when there
    is one; when the list is empty the caller queues itself and sleeps at
    [schedule()] instead of returning; and a woken sleeper goes back to
    the lock and the test of the list. *)
Theorem wm_policy_workmem_get_never_null
    (units : list ptr) (n : nat) (sched : schedule) (s : system) :
  NULL ∉ units →
  run sched (pool_init units n) = Some s →
  (∀ t th, threads s !! t = Some th →
     pc th ≠ GetNull ∧ pc th ≠ Fault ∧ NULL ∉ owned th) ∧
  (∀ (t : tid) th,
     threads s !! t = Some th → pc th = User → buffer_lock (pol s) = false →
     match idle_workmem (pol s) with
     | w :: rest =>
         w ≠ NULL ∧
         wm_policy_workmem_get t s =
         Some (w, System (Policy false rest (workmem_wait (pol s)))
                    (<[t := Thread User (w :: held th) (state th)]> (threads s)))
     | [] =>
         wm_policy_workmem_get t s = None ∧
         ∃ s1, run ((t, CallGet) :: replicate 5 (t, Run)) s = Some s1 ∧
               threads s1 !! t = Some (Thread GetSchedule (held th) TASK_UNINTERRUPTIBLE) ∧
               t ∈ workmem_wait (pol s1) ∧
               sys_step t Run s1 = None
     end) ∧
  (∀ (t : tid) th,
     threads s !! t = Some th → pc th = GetSchedule → state th = TASK_RUNNING →
     ∃ s2, run [(t, Run); (t, Run)] s = Some s2 ∧
           threads s2 !! t = Some (Thread GetLock (held th) TASK_RUNNING) ∧
           idle_workmem (pol s2) = idle_workmem (pol s)).
Proof.
  intros Hnull Hrun.
  destruct (run_inv _ _ _ Hrun (lock_inv_init units n)) as [Hinv Hperm].
  rewrite all_units_init in Hperm.
  assert (Hall : NULL ∉ all_units s) by (by rewrite Hperm).
  unfold all_units in Hall. rewrite not_elem_of_app in Hall. destruct Hall as [Hidle Hout].
  split; [|split].
  - intros t th Ht. destruct (no_fault _ Hinv _ _ Ht) as [? ?].
    do 2 (split; [done|]). intros Hin. apply Hout.
    unfold checked_out. apply list_elem_of_In, in_flat_map.
    exists th. split; apply list_elem_of_In; [by eapply list_elem_of_lookup_2|done].
  - intros t th Ht Hpc Hlock.
    destruct (idle_workmem (pol s)) as [|w rest] eqn:Hi.
    + destruct (get_suspends t s th Ht Hpc Hlock Hi) as (Hr & Hb & Hg).
      split; [done|]. eexists. split; [exact Hr|].
      cbn [threads pol]. split; [|split; [|exact Hb]].
      * apply list_lookup_insert_eq. by eapply lookup_lt_Some.
      * unfold prepare_to_wait_exclusive. cbn [fst].
        case_bool_decide; [done|]. apply elem_of_app. right. by apply list_elem_of_singleton.
    + split.
      * intros ->. apply Hidle. by left.
      * by apply get_returns_head.
  - intros t th Ht Hpc Hst.
    eexists. split; [by apply get_retries|].
    cbn [threads pol idle_workmem]. split; [|done].
    apply list_lookup_insert_eq. by eapply lookup_lt_Some.
Qed.

Lemma wm_policy_workmem_get_never_null_witness :
  let s := System (Policy false [] [])
             [Thread User [7%N] TASK_RUNNING; Thread User [] TASK_RUNNING] in
  (∀ t th, threads s !! t = Some th →
     pc th ≠ GetNull ∧ pc th ≠ Fault ∧ NULL ∉ owned th) ∧
  (∀ (t : tid) th,
     threads s !! t = Some th → pc th = User → buffer_lock (pol s) = false →
     match idle_workmem (pol s) with
     | w :: rest =>
         w ≠ NULL ∧
         wm_policy_workmem_get t s =
         Some (w, System (Policy false rest (workmem_wait (pol s)))
                    (<[t := Thread User (w :: held th) (state th)]> (threads s)))
     | [] =>
         wm_policy_workmem_get t s = None ∧
         ∃ s1, run ((t, CallGet) :: replicate 5 (t, Run)) s = Some s1 ∧
               threads s1 !! t = Some (Thread GetSchedule (held th) TASK_UNINTERRUPTIBLE) ∧
               t ∈ workmem_wait (pol s1) ∧
               sys_step t Run s1 = None
     end) ∧
  (∀ (t : tid) th,
     threads s !! t = Some th → pc th = GetSchedule → state th = TASK_RUNNING →
     ∃ s2, run [(t, Run); (t, Run)] s = Some s2 ∧
           threads s2 !! t = Some (Thread GetLock (held th) TASK_RUNNING) ∧
           idle_workmem (pol s2) = idle_workmem (pol s)).
Proof.
  refine (wm_policy_workmem_get_never_null [7%N] 2
            [(0, CallGet); (0, Run); (0, Run); (0, Run); (0, Run); (0, Run)] _ _ _).
  - intros H. apply list_elem_of_singleton in H. discriminate H.
  - reflexivity.
Defined.

(** C3. A call of [wm_policy_workmem_put] that runs alone with the lock
    free returns: the unit is the new tail of the idle list, the caller
    has given it up, the first waiter of the queue, if there is one, has
    been taken off the queue and made runnable, and every other thread,
    the other waiters among them, is as it was. No statement of the
    function sleeps: all but the spin_lock can always run, and the
    spin_lock can run whenever the lock is free. *)
Theorem wm_policy_workmem_put_wakes_one (t : tid) (s : system) (th : thread) (w : ptr) :
  threads s !! t = Some th → pc th = User → w ∈ held th →
  buffer_lock (pol s) = false →
  (∃ s', wm_policy_workmem_put t w s = Some s' ∧
     idle_workmem (pol s') = idle_workmem (pol s) ++ [w] ∧
     buffer_lock (pol s') = false ∧
     (∃ th', threads s' !! t = Some th' ∧ pc th' = User ∧
             held th' = list_del w (held th)) ∧
     match workmem_wait (pol s) with
     | [] =>
         workmem_wait (pol s') = [] ∧
         ∀ v, v ≠ t → threads s' !! v = threads s !! v
     | u :: rest =>
         workmem_wait (pol s') = rest ∧
         (∀ x, u ≠ t → threads s !! u = Some x →
               threads s' !! u = Some (Thread (pc x) (held x) TASK_RUNNING)) ∧
         (∀ v, v ≠ t → v ≠ u → threads s' !! v = threads s !! v)
     end) ∧
  (∀ s0 (t0 : tid) th0,
     threads s0 !! t0 = Some th0 → in_put (pc th0) = true →
     buffer_lock (pol s0) = false ∨ (∀ w0, pc th0 ≠ PutLock w0) →
     is_Some (sys_step t0 Run s0)).
Proof.
  intros Ht Hpc Hw Hlock. split.
  - eexists. split; [by apply put_appends|].
    cbn [pol threads idle_workmem buffer_lock workmem_wait].
    do 2 (split; [done|]). split.
    + destruct (lookup_wake_same (head (workmem_wait (pol s)))
                  (<[t := Thread User (list_del w (held th)) (state th)]> (threads s)) t
                  (Thread User (list_del w (held th)) (state th)))
        as (th' & Hl & Hp & Hh).
      { apply list_lookup_insert_eq. by eapply lookup_lt_Some. }
      by exists th'.
    + destruct (workmem_wait (pol s)) as [|u rest]; cbn [head tail wake].
      * split; [done|]. intros v Hv. by rewrite list_lookup_insert_ne.
      * split; [done|]. split.
        -- intros x Hu Hx. rewrite list_lookup_alter_eq.
           rewrite list_lookup_insert_ne by done. by rewrite Hx.
        -- intros v Hv Hvu. rewrite list_lookup_alter_ne by done.
           by rewrite list_lookup_insert_ne.
  - intros s0 t0 th0 Ht0 Hput Hfree. unfold sys_step. rewrite Ht0.
    destruct s0 as [[lock idle q] ths], th0 as [l hs st].
    cbn [pc pol buffer_lock] in *.
    destruct l; try discriminate Hput; unfold exec; cbn [pc pol buffer_lock].
    + destruct Hfree as [->|Hno]; [by eexists|]. by destruct (Hno workmem).
    + by eexists.
    + by eexists.
    + destruct (waitqueue_active _); by eexists.
    + cbn [workmem_wait]. destruct (wake_up q). by eexists.
Qed.

Lemma wm_policy_workmem_put_wakes_one_witness :
  let s := System (Policy false [] [1; 2])
             [Thread User [7%N] TASK_RUNNING;
              Thread GetSchedule [] TASK_UNINTERRUPTIBLE;
              Thread GetSchedule [] TASK_UNINTERRUPTIBLE] in
  let t := 0 in
  let th := Thread User [7%N] TASK_RUNNING in
  let w := 7%N in
  (∃ s', wm_policy_workmem_put t w s = Some s' ∧
     idle_workmem (pol s') = idle_workmem (pol s) ++ [w] ∧
     buffer_lock (pol s') = false ∧
     (∃ th', threads s' !! t = Some th' ∧ pc th' = User ∧
             held th' = list_del w (held th)) ∧
     match workmem_wait (pol s) with
     | [] =>
         workmem_wait (pol s') = [] ∧
         ∀ v, v ≠ t → threads s' !! v = threads s !! v
     | u :: rest =>
         workmem_wait (pol s') = rest ∧
         (∀ x, u ≠ t → threads s !! u = Some x →
               threads s' !! u = Some (Thread (pc x) (held x) TASK_RUNNING)) ∧
         (∀ v, v ≠ t → v ≠ u → threads s' !! v = threads s !! v)
     end) ∧
  (∀ s0 (t0 : tid) th0,
     threads s0 !! t0 = Some th0 → in_put (pc th0) = true →
     buffer_lock (pol s0) = false ∨ (∀ w0, pc th0 ≠ PutLock w0) →
     is_Some (sys_step t0 Run s0)).
Proof.
  intros s t th w.
  refine (wm_policy_workmem_put_wakes_one t s th w _ _ _ _).
  - reflexivity.
  - reflexivity.
  - apply list_elem_of_here.
  - reflexivity.
Defined.

Example put_wakes_first_waiter :
  wm_policy_workmem_put 0 7%N
    (System (Policy false [] [1; 2])
       [Thread User [7%N] TASK_RUNNING;
        Thread GetSchedule [] TASK_UNINTERRUPTIBLE;
        Thread GetSchedule [] TASK_UNINTERRUPTIBLE]) =
  Some (System (Policy false [7%N] [2])
          [Thread User [] TASK_RUNNING;
           Thread GetSchedule [] TASK_RUNNING;
           Thread GetSchedule [] TASK_UNINTERRUPTIBLE]).
Proof. vm_compute. reflexivity. Qed.

Lemma put_all_tail (t : tid) ws s th hs :
  threads s !! t = Some th → pc th = User → held th = ws ++ hs →
  buffer_lock (pol s) = false →
  ∃ s1 th1,
    put_all t ws s = Some s1 ∧
    idle_workmem (pol s1) = idle_workmem (pol s) ++ ws ∧
    buffer_lock (pol s1) = false ∧
    threads s1 !! t = Some th1 ∧ pc th1 = User ∧ held th1 = hs.
Proof.
  revert s th. induction ws as [|w ws IH]; intros s th Ht Hpc Hheld Hlock.
  - exists s, th. by rewrite app_nil_r.
  - assert (Hw : w ∈ held th) by (rewrite Hheld; by left).
    destruct (lookup_wake_same (head (workmem_wait (pol s)))
                (<[t := Thread User (list_del w (held th)) (state th)]> (threads s)) t
                (Thread User (list_del w (held th)) (state th)))
      as (th' & Hl & Hp & Hh).
    { apply list_lookup_insert_eq. by eapply lookup_lt_Some. }
    cbn [put_all]. rewrite (put_appends t s th w Ht Hpc Hw Hlock).
    edestruct (IH (System (Policy false (idle_workmem (pol s) ++ [w])
                                    (tail (workmem_wait (pol s)))) _) th' Hl)
      as (s1 & th1 & E & Hidle & Hl1 & Ht1 & Hp1 & Hh1); [done| |done|].
    { rewrite Hh. cbn [held]. rewrite Hheld. apply list_del_head. }
    exists s1, th1. split; [done|]. split; [|done].
    rewrite Hidle. cbn [pol idle_workmem]. by rewrite <- app_assoc.
Qed.

Lemma get_n_head (t : tid) l s th :
  threads s !! t = Some th → pc th = User →
  buffer_lock (pol s) = false → idle_workmem (pol s) = l →
  ∃ s2, get_n t (length l) s = Some (l, s2) ∧ idle_workmem (pol s2) = [].
Proof.
  revert s th. induction l as [|w l IH]; intros s th Ht Hpc Hlock Hidle.
  - by exists s.
  - cbn [length get_n]. rewrite (get_returns_head t s th w l Ht Hpc Hlock Hidle).
    edestruct (IH (System (Policy false l (workmem_wait (pol s)))
                     (<[t := Thread User (w :: held th) (state th)]> (threads s)))
                  (Thread User (w :: held th) (state th))) as (s2 & E & Hi);
      [|done|done|done|].
    { cbn [threads]. apply list_lookup_insert_eq. by eapply lookup_lt_Some. }
    exists s2. by rewrite E.
Qed.

(** C10. The idle list is a queue: after a caller has put the units [ws]
    one after the other with no get in between, the idle list is the old
    one followed by [ws], and as many gets as the list is long return its
    units from the head on, in the order in which they were put in. *)
Theorem idle_workmem_fifo (t : tid) (s : system) (th : thread) (ws hs : list ptr) :
  threads s !! t = Some th → pc th = User → held th = ws ++ hs →
  buffer_lock (pol s) = false →
  ∃ s1 s2,
    put_all t ws s = Some s1 ∧
    idle_workmem (pol s1) = idle_workmem (pol s) ++ ws ∧
    get_n t (length (idle_workmem (pol s) ++ ws)) s1 =
      Some (idle_workmem (pol s) ++ ws, s2) ∧
    idle_workmem (pol s2) = [].
Proof.
  intros Ht Hpc Hheld Hlock.
  destruct (put_all_tail t ws s th hs Ht Hpc Hheld Hlock)
    as (s1 & th1 & E & Hidle & Hl1 & Ht1 & Hp1 & _).
  destruct (get_n_head t (idle_workmem (pol s) ++ ws) s1 th1 Ht1 Hp1 Hl1 Hidle)
    as (s2 & G & Hi).
  by exists s1, s2.
Qed.

Lemma idle_workmem_fifo_witness :
  let s := System (Policy false [4%N] [])
             [Thread User [5%N; 6%N; 9%N] TASK_RUNNING] in
  ∃ s1 s2,
    put_all 0 [5%N; 6%N] s = Some s1 ∧
    idle_workmem (pol s1) = idle_workmem (pol s) ++ [5%N; 6%N] ∧
    get_n 0 (length (idle_workmem (pol s) ++ [5%N; 6%N])) s1 =
      Some (idle_workmem (pol s) ++ [5%N; 6%N], s2) ∧
    idle_workmem (pol s2) = [].
Proof.
  intros s.
  refine (idle_workmem_fifo 0 s (Thread User [5%N; 6%N; 9%N] TASK_RUNNING)
            [5%N; 6%N] [9%N] _ _ _ _); reflexivity.
Defined.

Example fifo_order :
  match put_all 0 [5%N; 6%N]
          (System (Policy false [4%N] []) [Thread User [5%N; 6%N] TASK_RUNNING]) with
  | Some s1 => fst <$> get_n 0 3 s1
  | None => None
  end = Some [4%N; 5%N; 6%N].
Proof. vm_compute. reflexivity. Qed.

(** ** The registry *)

Section RegistryFacts.

Variable CONFIG_ZRAM_LZO_COMPRESS CONFIG_ZRAM_LZ4_COMPRESS : bool.
Variable sysfs_streq : string → string → bool.
Variable call_create : fn → ptr → kern Z.
Variable call_destroy : fn → ptr → kern unit.

Local Abbreviation table := (compressors CONFIG_ZRAM_LZO_COMPRESS CONFIG_ZRAM_LZ4_COMPRESS).
Local Abbreviation find_row :=
  (registry_find CONFIG_ZRAM_LZO_COMPRESS CONFIG_ZRAM_LZ4_COMPRESS sysfs_streq).
Local Abbreviation create :=
  (zcomp_create CONFIG_ZRAM_LZO_COMPRESS CONFIG_ZRAM_LZ4_COMPRESS sysfs_streq
                call_create call_destroy).
Local Abbreviation create_from := (zcomp_create_from call_create call_destroy).
Local Abbreviation destroy := (zcomp_destroy call_destroy).

(** The three assignments to the fields of the zeroed handle leave the
    handle of [zcomp_create_from]. *)
Lemma zcomp_create_fill row m :
  (comp <- kzalloc_comp ;;
   if is_null comp then kret NULL
   else
     c <- load_comp comp ;;
     store_comp comp (set_comp_name (zc_name row) c) ;;
     c <- load_comp comp ;;
     store_comp comp (set_comp_create (zc_create row) c) ;;
     c <- load_comp comp ;;
     store_comp comp (set_comp_destroy (zc_destroy row) c) ;;
     c <- load_comp comp ;;
     rc <- match comp_create c with
           | Some f => call_create f comp
           | None => kfault
           end ;;
     if negb (rc =? 0)%Z then
       destroy comp ;;
       kret NULL
     else kret comp) m = create_from row m.
Proof.
  unfold zcomp_create_from, kzalloc_comp, kbind.
  destruct (granted (pressure m !! 0)) eqn:G.
  - destruct (alloc_granted (BComp (Comp None None None None None None NULL None)) m G)
      as (a & Ha & ->).
    cbn [is_null N.eqb NULL load_comp store_comp heap pressure].
    repeat (rewrite lookup_insert_eq; cbn [heap pressure]).
    rewrite !insert_insert_eq. unfold new_handle. done.
  - rewrite alloc_denied by done. done.
Qed.

(** [zcomp_create] is the lookup of the first matching row followed by
    the construction of a handle from it. *)
Lemma zcomp_create_find compress m :
  create compress m =
  match find_row compress with
  | Some row => create_from row m
  | None => Some (NULL, m)
  end.
Proof.
  unfold zcomp_create, registry_find, compressors, row_matches, ARRAY_SIZE.
  destruct CONFIG_ZRAM_LZO_COMPRESS, CONFIG_ZRAM_LZ4_COMPRESS; simpl;
    repeat match goal with |- context [sysfs_streq compress ?n] =>
             destruct (sysfs_streq compress n); simpl end;
    try done;
    match goal with |- _ = zcomp_create_from _ _ ?row _ =>
      exact (zcomp_create_fill row m) end.
Qed.

Lemma find_row_None compress :
  find_row compress = None ↔
  ∀ row name, row ∈ table → zc_name row = Some name → sysfs_streq compress name = false.
Proof.
  unfold registry_find, row_matches. split.
  - intros Hf row name Hin Hn.
    apply list_elem_of_In in Hin.
    pose proof (find_none _ _ Hf row Hin) as H. simpl in H. by rewrite Hn in H.
  - intros H. destruct (find _ _) as [row|] eqn:Hf; [|done].
    apply find_some in Hf as [Hin Hm]. apply list_elem_of_In in Hin.
    destruct (zc_name row) as [name|] eqn:Hn; [|done].
    by rewrite (H row name Hin Hn) in Hm.
Qed.

Lemma find_row_Some compress row :
  find_row compress = Some row →
  row ∈ table ∧
  ∃ name f d, zc_name row = Some name ∧ zc_create row = Some f ∧
              zc_destroy row = Some d ∧ sysfs_streq compress name = true.
Proof.
  unfold registry_find, row_matches. intros [Hin Hm]%find_some.
  split; [by apply list_elem_of_In|].
  unfold compressors in Hin.
  destruct CONFIG_ZRAM_LZO_COMPRESS, CONFIG_ZRAM_LZ4_COMPRESS; simpl in Hin;
    repeat destruct Hin as [<-|Hin]; try done; simpl in *; eauto 10.
Qed.

Lemma alloc_Some b m a m1 :
  alloc b m = Some (Npos a, m1) →
  heap m !! a = None ∧ m1 = Kmem (<[a := b]> (heap m)) (tail (pressure m)).
Proof.
  destruct (granted (pressure m !! 0)) eqn:G.
  - destruct (alloc_granted b m G) as (a' & Ha & ->). by intros [= <- <-].
  - by rewrite alloc_denied.
Qed.

(** C6. [zcomp_create] of a name that no row of the table matches returns
    NULL and leaves memory, and the allocator, as they were. When the
    constructor of the row found fails, [zcomp_create] calls the
    destructor the handle points to, frees the handle and returns NULL.
    A handle is returned only when the constructor has returned 0 on it. *)
Theorem zcomp_create_no_partial_handle (compress : string) (m : kmem) :
  ((∀ row name, row ∈ table → zc_name row = Some name →
                sysfs_streq compress name = false) →
   create compress m = Some (NULL, m)) ∧
  (∀ row f a m1 rc m2,
     find_row compress = Some row → zc_create row = Some f →
     kzalloc_comp m = Some (Npos a, m1) →
     call_create f (Npos a)
       (Kmem (<[a := BComp (new_handle row)]> (heap m1)) (pressure m1)) = Some (rc, m2) →
     rc ≠ 0%Z →
     create compress m = (destroy (Npos a) ;; kret NULL) m2 ∧
     ∀ p m', create compress m = Some (p, m') →
       p = NULL ∧ heap m' !! a = None ∧
       ∃ c d m3,
         heap m2 !! a = Some (BComp c) ∧ comp_destroy c = Some d ∧
         call_destroy d (Npos a) m2 = Some (tt, m3) ∧
         m' = Kmem (delete a (heap m3)) (pressure m3)) ∧
  (∀ p m', create compress m = Some (p, m') → p ≠ NULL →
     ∃ row f a m1,
       find_row compress = Some row ∧ zc_create row = Some f ∧
       kzalloc_comp m = Some (Npos a, m1) ∧ p = Npos a ∧
       call_create f (Npos a)
         (Kmem (<[a := BComp (new_handle row)]> (heap m1)) (pressure m1)) = Some (0%Z, m')).
Proof.
  split; [|split].
  - intros Hno%find_row_None. by rewrite zcomp_create_find, Hno.
  - intros row f a m1 rc m2 Hfind Hf Ha Hcall Hrc.
    assert (E : create compress m = (destroy (Npos a) ;; kret NULL) m2).
    { rewrite zcomp_create_find, Hfind. unfold zcomp_create_from, kbind at 1.
      rewrite Ha. cbn [is_null N.eqb NULL]. unfold kbind at 1.
      apply alloc_Some in Ha as [_ ->].
      unfold store_comp at 1. cbn [heap pressure]. rewrite lookup_insert_eq.
      rewrite insert_insert_eq. unfold kbind at 1. rewrite Hf.
      cbn [heap pressure] in Hcall. rewrite insert_insert_eq in Hcall. rewrite Hcall.
      apply Z.eqb_neq in Hrc. by rewrite Hrc. }
    split; [done|]. rewrite E. intros p m'.
    unfold zcomp_destroy, kbind, load_comp, kfree, release, kret.
    destruct (heap m2 !! a) as [[| |c]|] eqn:Hc; try done.
    destruct (comp_destroy c) as [d|] eqn:Hd; [|done].
    destruct (call_destroy d (N.pos a) m2) as [[[] m3]|] eqn:Hm3; [|done].
    intros [= <- <-]. split; [done|]. split; [apply lookup_delete_eq|].
    by exists c, d, m3.
  - intros p m'. rewrite zcomp_create_find.
    destruct (find_row compress) as [row|] eqn:Hfind; [|by intros [= <- _]].
    destruct (find_row_Some _ _ Hfind) as (_ & name & f & d & _ & Hf & _ & _).
    unfold zcomp_create_from, kbind at 1.
    destruct (kzalloc_comp m) as [[[|a] m1]|] eqn:Ha; [by intros [= <- _]| |done].
    cbn [is_null N.eqb NULL]. unfold kbind at 1.
    pose proof Ha as Ha'. apply alloc_Some in Ha' as [_ ->].
    unfold store_comp at 1. cbn [heap pressure]. rewrite lookup_insert_eq.
    unfold kbind at 1. rewrite Hf.
    destruct (call_create f (N.pos a) _) as [[rc m2]|] eqn:Hcall; [|done].
    destruct (Z.eqb_spec rc 0) as [->|Hrc]; cbn [negb].
    + intros [= <- <-] _. eexists row, f, a, _. by repeat split.
    + unfold kbind. destruct (zcomp_destroy _ _ _); [|done].
      destruct p0. by intros [= <- _].
Qed.

End RegistryFacts.

Example zcomp_create_unknown :
  zcomp_create true true sysfs_streq_spec example_create example_destroy
    "zstd" (Kmem ∅ [false]) = Some (NULL, Kmem ∅ [false]).
Proof. vm_compute. reflexivity. Qed.

Example zcomp_create_constructor_fails :
  zcomp_create true true sysfs_streq_spec example_create example_destroy
    "lzo" (Kmem ∅ [true; true; true; false]) = Some (NULL, Kmem ∅ []).
Proof. vm_compute. reflexivity. Qed.

Example zcomp_create_lz4 :
  zcomp_create true true sysfs_streq_spec example_create example_destroy
    "lz4" (Kmem ∅ []) =
  Some (1%N,
        Kmem {[ 1%positive := BComp (Comp None None None None (Some zcomp_lz4_create)
                                        (Some zcomp_lz4_destroy) NULL (Some "lz4"));
                2%positive := BWorkmem (Workmem 3%N 4%N);
                3%positive := BVmalloc 64;
                4%positive := BVmalloc 8192 ]} []).
Proof. vm_compute. reflexivity. Qed.

(** C7. With the comparison the spec describes, [zcomp_create] looks the
    requested name up in the compiled-in table, whose names are lzo and
    lz4 at most: two names compare equal exactly when they are the same
    after the final newline is dropped and letters are lowered; a name
    that compares equal to no row is rejected by [zcomp_create] itself,
    which returns NULL and touches nothing; any other name selects the
    first row it compares equal to, and the handle is built from that row. *)
Theorem zcomp_create_name_lookup (LZO LZ4 : bool)
    (call_create : fn → ptr → kern Z) (call_destroy : fn → ptr → kern unit)
    (compress : string) (m : kmem) :
  (∀ s1 s2, sysfs_streq_spec s1 s2 = true ↔ lowercase (trim s1) = lowercase (trim s2)) ∧
  (∀ row name, row ∈ compressors LZO LZ4 → zc_name row = Some name →
               name = "lzo" ∨ name = "lz4") ∧
  ((∀ row name, row ∈ compressors LZO LZ4 → zc_name row = Some name →
                lowercase (trim compress) ≠ lowercase (trim name)) →
   zcomp_create LZO LZ4 sysfs_streq_spec call_create call_destroy compress m =
   Some (NULL, m)) ∧
  (∀ row, registry_find LZO LZ4 sysfs_streq_spec compress = Some row →
     row ∈ compressors LZO LZ4 ∧
     (∃ name, zc_name row = Some name ∧
              lowercase (trim compress) = lowercase (trim name)) ∧
     zcomp_create LZO LZ4 sysfs_streq_spec call_create call_destroy compress m =
     zcomp_create_from call_create call_destroy row m).
Proof.
  assert (Heq : ∀ s1 s2, sysfs_streq_spec s1 s2 = true ↔
                         lowercase (trim s1) = lowercase (trim s2)).
  { intros s1 s2. unfold sysfs_streq_spec. apply String.eqb_eq. }
  split; [exact Heq|]. split; [|split].
  - intros row name Hin Hn. unfold compressors in Hin.
    destruct LZO, LZ4; simpl in Hin;
      repeat (apply elem_of_cons in Hin as [->|Hin]); simpl in Hn;
      try apply elem_of_nil in Hin; try done; simplify_eq; auto.
  - intros Hno. rewrite zcomp_create_find.
    assert (registry_find LZO LZ4 sysfs_streq_spec compress = None) as ->; [|done].
    apply find_row_None. intros row name Hin Hn.
    destruct (sysfs_streq_spec compress name) eqn:E; [|done].
    apply Heq in E. by destruct (Hno row name Hin Hn).
  - intros row Hfind.
    destruct (find_row_Some _ _ _ _ _ Hfind) as (Hin & name & f & d & Hn & _ & _ & E).
    split; [done|]. split; [exists name; split; [done|by apply Heq]|].
    by rewrite zcomp_create_find, Hfind.
Qed.

Example zcomp_create_sysfs_write :
  zcomp_create true true sysfs_streq_spec example_create example_destroy
    (String "L" (String "Z" (String "4" newline))) (Kmem ∅ []) =
  zcomp_create true true sysfs_streq_spec example_create example_destroy
    "lz4" (Kmem ∅ []).
Proof. vm_compute. reflexivity. Qed.

(** ** The listing of the backends *)

Lemma length_list_ascii s : length (list_ascii_of_string s) = String.length s.
Proof. induction s as [|c s IH]; simpl; [done|f_equal; apply IH]. Qed.

Lemma append_cons c (s1 s2 : string) : String c s1 +:+ s2 = String c (s1 +:+ s2).
Proof. reflexivity. Qed.

Lemma list_ascii_app s1 s2 :
  list_ascii_of_string (s1 +:+ s2) = list_ascii_of_string s1 ++ list_ascii_of_string s2.
Proof. induction s1 as [|c s1 IH]; simpl; [done|f_equal; apply IH]. Qed.

Lemma string_app_assoc (s1 s2 s3 : string) : (s1 +:+ s2) +:+ s3 = s1 +:+ (s2 +:+ s3).
Proof. induction s1 as [|c s1 IH]; [done|]. rewrite !append_cons. f_equal. apply IH. Qed.

Lemma strcmp_eqb s1 s2 :
  nul_free s1 = true → nul_free s2 = true →
  (strcmp s1 s2 =? 0)%Z = String.eqb s1 s2.
Proof.
  revert s2. induction s1 as [|c1 s1 IH]; intros [|c2 s2]; simpl; try done.
  - intros _ [Hc _]%andb_prop. apply Z.eqb_neq.
    destruct (Ascii.eqb_spec c2 zero) as [->|Hne]; [done|].
    assert (nat_of_ascii c2 ≠ 0).
    { intros H0. apply Hne. by rewrite <- (ascii_nat_embedding c2), H0. }
    lia.
  - intros [Hc _]%andb_prop _. apply Z.eqb_neq.
    destruct (Ascii.eqb_spec c1 zero) as [->|Hne]; [done|].
    assert (nat_of_ascii c1 ≠ 0).
    { intros H0. apply Hne. by rewrite <- (ascii_nat_embedding c1), H0. }
    lia.
  - intros [Hc1 H1]%andb_prop [Hc2 H2]%andb_prop.
    destruct (Ascii.eqb_spec c1 c2) as [->|Hne].
    + destruct (Ascii.eqb c2 zero); [done|]. by apply IH.
    + apply Z.eqb_neq. intros Hz. apply Hne.
      rewrite <- (ascii_nat_embedding c1), <- (ascii_nat_embedding c2).
      f_equal. lia.
Qed.

Lemma sprintf_wrote text buf sz fmt arg :
  wrote text buf sz →
  let r := sprintf buf sz fmt arg in
  wrote (text +:+ format fmt arg) r.1 (sz + r.2) ∧
  r.1 !! String.length (text +:+ format fmt arg) = Some zero.
Proof.
  intros [-> Htake]. unfold sprintf. cbn [fst snd]. rewrite Nat2Z.id, Htake.
  set (old := list_ascii_of_string text).
  set (new := list_ascii_of_string (format fmt arg)).
  assert (Hlen : String.length (text +:+ format fmt arg) = length (old ++ new)).
  { by rewrite <- length_list_ascii, list_ascii_app. }
  split; [split|].
  - rewrite Hlen, length_app. unfold old, new. rewrite !length_list_ascii. lia.
  - rewrite Hlen, list_ascii_app, app_assoc. by rewrite take_app_length.
  - rewrite Hlen, app_assoc. by rewrite list_lookup_middle.
Qed.

Lemma c_str_app s rest :
  nul_free s = true → c_str (list_ascii_of_string s ++ zero :: rest) = s.
Proof.
  induction s as [|c s IH]; simpl; [done|].
  intros [Hc Hs]%andb_prop. apply negb_true_iff in Hc. rewrite Hc. by rewrite IH.
Qed.

Lemma wrote_c_str text buf sz :
  wrote text buf sz → buf !! String.length text = Some zero →
  nul_free text = true → c_str buf = text.
Proof.
  intros [_ Htake] Hz Hnf.
  rewrite <- (take_drop (String.length text) buf), Htake.
  rewrite (drop_S _ _ _ Hz). by apply c_str_app.
Qed.

Lemma wrote_nothing buf : wrote "" buf 0.
Proof. split; [done|]. by rewrite take_0. Qed.

(** One turn of the loop of [zcomp_available_show] appends the name of
    row [i] the way [show_name] writes it. *)
Lemma show_loop_step LZO LZ4 n i comp buf sz m active name c d text :
  compressors LZO LZ4 !! i = Some (Zcomp (Some name) c d) →
  active_backend comp m = Some active →
  (∀ cname, active = Some cname → nul_free cname = true) →
  nul_free name = true →
  wrote text buf sz →
  ∃ buf' sz',
    zcomp_available_show_loop LZO LZ4 (S n) i comp buf sz m =
    zcomp_available_show_loop LZO LZ4 n (S i) comp buf' sz' m ∧
    wrote (text +:+ show_name active name) buf' sz' ∧
    buf' !! String.length (text +:+ show_name active name) = Some zero.
Proof.
  intros Hrow Hact Hnf Hname Hw.
  cbn [zcomp_available_show_loop]. rewrite Hrow. unfold kbind at 1.
  destruct comp as [|a]; cbn [is_null N.eqb NULL].
  - injection Hact as <-. unfold kret at 1. cbn [show_name].
    destruct (sprintf_wrote text buf sz "%s " name Hw) as [Hw' Hz].
    by eexists _, _.
  - unfold active_backend in Hact. unfold kbind at 1, load_comp.
    destruct (heap m !! a) as [[| |c0]|]; try done.
    destruct (comp_name c0) as [cname|]; [|done]. injection Hact as <-.
    unfold kret at 1. rewrite strcmp_eqb by auto. cbn [show_name].
    destruct (String.eqb cname name).
    + destruct (sprintf_wrote text buf sz "<%s> " name Hw) as [Hw' Hz].
      by eexists _, _.
    + destruct (sprintf_wrote text buf sz "%s " name Hw) as [Hw' Hz].
      by eexists _, _.
Qed.

Lemma nul_free_app (s1 s2 : string) :
  nul_free (s1 +:+ s2) = nul_free s1 && nul_free s2.
Proof.
  induction s1 as [|c s1 IH]; [done|].
  rewrite append_cons. simpl. by rewrite IH, andb_assoc.
Qed.

(** C8. For a null [comp], or a [comp] that points to a live handle with a
    name, [zcomp_available_show] returns the length of the listing and
    leaves in [buf] the listing as a C string: the names of all backends
    of the table in order, each followed by a space, the one equal to the
    name of [comp] in angle brackets and no other, none when [comp] is
    null, and a newline at the end. *)
Theorem zcomp_available_show_listing (LZO LZ4 : bool) (comp : ptr)
    (buf : list ascii) (m : kmem) (active : option string) :
  active_backend comp m = Some active →
  (∀ cname, active = Some cname → nul_free cname = true) →
  ∃ buf',
    zcomp_available_show LZO LZ4 comp buf m =
      Some ((buf', Z.of_nat (String.length (listing LZO LZ4 active))), m) ∧
    c_str buf' = listing LZO LZ4 active ∧
    listing LZO LZ4 active =
      foldr (λ name rest,
               (if bool_decide (active = Some name)
                then "<" +:+ name +:+ "> " else name +:+ " ") +:+ rest)
            newline (backend_names LZO LZ4).
Proof.
  intros Hact Hnf.
  assert (Hlist : listing LZO LZ4 active =
      foldr (λ name rest,
               (if bool_decide (active = Some name)
                then "<" +:+ name +:+ "> " else name +:+ " ") +:+ rest)
            newline (backend_names LZO LZ4)).
  { unfold listing. induction (backend_names LZO LZ4) as [|name l IH]; [done|].
    cbn [foldr]. rewrite IH. f_equal. unfold show_name.
    destruct active as [cname|]; [|done].
    destruct (String.eqb_spec cname name) as [->|Hne].
    - by rewrite bool_decide_eq_true_2.
    - rewrite bool_decide_eq_false_2; [done|]. by intros [= ->]. }
  assert (Hend : ∀ text buf1 sz1,
    wrote text buf1 sz1 → nul_free text = true →
    listing LZO LZ4 active = text +:+ newline →
    ∃ buf',
      kret ((sprintf buf1 sz1 newline "").1,
            (sz1 + (sprintf buf1 sz1 newline "").2)%Z) m =
      Some ((buf', Z.of_nat (String.length (listing LZO LZ4 active))), m) ∧
      c_str buf' = listing LZO LZ4 active).
  { intros text buf1 sz1 Hw Htext ->.
    destruct (sprintf_wrote text buf1 sz1 newline "" Hw) as [Hw' Hz].
    change (format newline "") with newline in *.
    eexists. split.
    - unfold kret. destruct Hw' as [-> _]. done.
    - eapply wrote_c_str; [done..|]. by rewrite nul_free_app, Htext. }
  assert (Hshow : ∀ name, nul_free name = true → nul_free (show_name active name) = true).
  { intros name Hn. unfold show_name.
    destruct active as [cname|]; [destruct (String.eqb cname name)|];
      rewrite ?append_cons, ?nul_free_app; simpl; rewrite ?nul_free_app, Hn; done. }
  unfold zcomp_available_show, kbind.
  destruct LZO, LZ4; cbn [compressors ARRAY_SIZE app length Nat.sub].
  - edestruct (show_loop_step true true 1 0 comp buf 0%Z m active "lzo")
      as (buf1 & sz1 & -> & Hw1 & _); [done..|apply wrote_nothing|].
    edestruct (show_loop_step true true 0 1 comp buf1 sz1 m active "lz4")
      as (buf2 & sz2 & -> & Hw2 & _); [done..|].
    cbn [zcomp_available_show_loop kret fst snd].
    destruct (Hend _ _ _ Hw2) as (buf' & E & Hc).
    { rewrite !nul_free_app, !Hshow; done. }
    { unfold listing. simpl. by rewrite !string_app_assoc. }
    by exists buf'.
  - edestruct (show_loop_step true false 0 0 comp buf 0%Z m active "lzo")
      as (buf1 & sz1 & -> & Hw1 & _); [done..|apply wrote_nothing|].
    cbn [zcomp_available_show_loop kret fst snd].
    destruct (Hend _ _ _ Hw1) as (buf' & E & Hc).
    { rewrite !nul_free_app, !Hshow; done. }
    { unfold listing. simpl. by rewrite !string_app_assoc. }
    by exists buf'.
  - edestruct (show_loop_step false true 0 0 comp buf 0%Z m active "lz4")
      as (buf1 & sz1 & -> & Hw1 & _); [done..|apply wrote_nothing|].
    cbn [zcomp_available_show_loop kret fst snd].
    destruct (Hend _ _ _ Hw1) as (buf' & E & Hc).
    { rewrite !nul_free_app, !Hshow; done. }
    { unfold listing. simpl. by rewrite !string_app_assoc. }
    by exists buf'.
  - cbn [zcomp_available_show_loop kret fst snd].
    destruct (Hend _ _ _ (wrote_nothing buf)) as (buf' & E & Hc); [done..|].
    by exists buf'.
Qed.

Lemma zcomp_available_show_listing_witness :
  let m := Kmem {[ 1%positive := BComp (Comp None None None None (Some zcomp_lz4_create)
                                          (Some zcomp_lz4_destroy) NULL (Some "lz4")) ]} [] in
  ∃ buf',
    zcomp_available_show true true 1%N [] m =
      Some ((buf', Z.of_nat (String.length (listing true true (Some "lz4")))), m) ∧
    c_str buf' = listing true true (Some "lz4") ∧
    listing true true (Some "lz4") =
      foldr (λ name rest,
               (if bool_decide (Some "lz4" = Some name)
                then "<" +:+ name +:+ "> " else name +:+ " ") +:+ rest)
            newline (backend_names true true).
Proof.
  intros m.
  refine (zcomp_available_show_listing true true 1%N [] m (Some "lz4") _ _).
  - reflexivity.
  - intros cname [= <-]. reflexivity.
Defined.

Example listing_lz4_active :
  listing true true (Some "lz4") = "lzo <lz4> " +:+ newline.
Proof. reflexivity. Qed.

Example listing_none_active :
  listing true true None = "lzo lz4 " +:+ newline.
Proof. reflexivity. Qed.

(** * Further properties *)

(** ** Teardown of units and pools *)

(** What [workmem_free] does to a complete unit. *)
Lemma workmem_free_unit (h : gmap positive block) (w mem buf : positive)
    (bm bb : block) (p : list bool) :
  h !! w = None → h !! mem = None → h !! buf = None →
  w ≠ mem → w ≠ buf → mem ≠ buf →
  workmem_free (Npos w)
    (Kmem (<[w := BWorkmem (Workmem (Npos mem) (Npos buf))]>
             (<[buf := bb]> (<[mem := bm]> h))) p) =
  Some (tt, Kmem h p).
Proof.
  intros Hw Hm Hb N1 N2 N3.
  unfold workmem_free, kbind, load_workmem, vfree, kfree, release.
  cbn [heap pressure]. rewrite lookup_insert_eq. cbn [wm_buf wm_mem heap pressure].
  do 2 f_equal. f_equal.
  apply map_eq. intros i. rewrite !lookup_delete, !lookup_insert.
  repeat case_decide; congruence.
Qed.

(** X2. A unit that [workmem_alloc] has returned is given back whole by
    [workmem_free]: the structure and both regions are released, and the
    live allocations are those from before the allocation. *)
Theorem workmem_alloc_free (PAGE_SIZE sz : Z) (m m1 : kmem) (w : positive) :
  workmem_alloc PAGE_SIZE sz m = Some (Npos w, m1) →
  workmem_free (Npos w) m1 = Some (tt, Kmem (heap m) (pressure m1)).
Proof.
  intros Ha.
  destruct (workmem_alloc_cases PAGE_SIZE sz m)
    as [[_ E]|[(_ & _ & E)|(_ & _ & _ & w' & mem & buf & Hw & Hm & Hb & N1 & N2 & N3 & E)]];
    rewrite E in Ha; try discriminate Ha.
  injection Ha as <- <-. cbn [pressure]. by apply workmem_free_unit.
Qed.

Lemma workmem_alloc_free_witness :
  workmem_free 1%N
    (Kmem {[ 1%positive := BWorkmem (Workmem 2%N 3%N);
             2%positive := BVmalloc 64;
             3%positive := BVmalloc 8192 ]} []) =
  Some (tt, Kmem ∅ []).
Proof.
  refine (workmem_alloc_free 4096 64 (Kmem ∅ []) _ 1%positive _). reflexivity.
Defined.

(** X3. [wm_policy_free] of a pool that [wm_policy_init] has just set up
    empties the idle list and releases everything the initialisation has
    allocated. *)
Theorem wm_policy_init_free (PAGE_SIZE EINVAL sz : Z) (m m1 : kmem)
    (policy : zcomp_wm_policy) :
  EINVAL ≠ 0%Z →
  wm_policy_init PAGE_SIZE EINVAL sz m = Some ((0%Z, policy), m1) →
  wm_policy_free policy m1 =
  Some (Policy false [] [], Kmem (heap m) (pressure m1)).
Proof.
  intros HE Hinit.
  destruct (wm_policy_init_cases PAGE_SIZE EINVAL sz m)
    as [(_ & rest & E)|(_ & _ & _ & w & mem & buf & Hw & Hm & Hb & N1 & N2 & N3 & E)];
    rewrite E in Hinit.
  - injection Hinit as ? _ _. lia.
  - injection Hinit as <- <-.
    unfold wm_policy_free. cbn [idle_workmem length wm_policy_free_loop pressure].
    unfold kbind at 1. unfold kbind at 1.
    rewrite workmem_free_unit by done.
    by rewrite list_del_head.
Qed.

Lemma wm_policy_init_free_witness :
  wm_policy_free (Policy false [1%N] [])
    (Kmem {[ 1%positive := BWorkmem (Workmem 2%N 3%N);
             2%positive := BVmalloc 64;
             3%positive := BVmalloc 8192 ]} []) =
  Some (Policy false [] [], Kmem ∅ []).
Proof.
  assert (H : (22 ≠ 0)%Z) by discriminate.
  refine (wm_policy_init_free 4096 22 64 (Kmem ∅ []) _ (Policy false [1%N] []) H _).
  reflexivity.
Defined.

(** X5. [wm_policy_free] frees the idle units only: when the one unit of a
    new pool is checked out, the teardown leaves the policy and memory as
    they are, and the unit stays allocated in the hands of its caller. *)
Theorem wm_policy_free_checked_out (PAGE_SIZE EINVAL sz : Z) (m m1 : kmem)
    (policy : zcomp_wm_policy) (ths : list thread) (t : tid) (th : thread)
    (w : ptr) (s : system) :
  EINVAL ≠ 0%Z →
  wm_policy_init PAGE_SIZE EINVAL sz m = Some ((0%Z, policy), m1) →
  ths !! t = Some th → pc th = User →
  wm_policy_workmem_get t (System policy ths) = Some (w, s) →
  idle_workmem policy = [w] ∧
  wm_policy_free (pol s) m1 = Some (pol s, m1) ∧
  ∃ a mem buf, w = Npos a ∧
    heap m1 !! a = Some (BWorkmem (Workmem (Npos mem) (Npos buf))) ∧
    heap m1 !! mem = Some (BVmalloc sz) ∧
    heap m1 !! buf = Some (BVmalloc (2 * PAGE_SIZE)).
Proof.
  intros HE Hinit Ht Hpc Hget.
  destruct (wm_policy_init_cases PAGE_SIZE EINVAL sz m)
    as [(_ & rest & E)|(_ & _ & _ & a & mem & buf & Hw & Hm & Hb & N1 & N2 & N3 & E)];
    rewrite E in Hinit.
  - injection Hinit as ? _ _. lia.
  - injection Hinit as <- <-.
    rewrite (get_returns_head t (System (Policy false [Npos a] []) ths) th (Npos a) []
               Ht Hpc eq_refl eq_refl) in Hget.
    injection Hget as <- <-. split; [done|]. split; [done|].
    exists a, mem, buf. split; [done|]. cbn [heap].
    rewrite lookup_insert_eq.
    rewrite (lookup_insert_ne _ a mem), (lookup_insert_ne _ buf mem), lookup_insert_eq by done.
    rewrite (lookup_insert_ne _ a buf), lookup_insert_eq by done.
    done.
Qed.

Lemma wm_policy_free_checked_out_witness :
  let m1 := Kmem {[ 1%positive := BWorkmem (Workmem 2%N 3%N);
                    2%positive := BVmalloc 64;
                    3%positive := BVmalloc 8192 ]} [] in
  let s := System (Policy false [] []) [Thread User [1%N] TASK_RUNNING] in
  idle_workmem (Policy false [1%N] []) = [1%N] ∧
  wm_policy_free (pol s) m1 = Some (pol s, m1) ∧
  ∃ a mem buf, 1%N = Npos a ∧
    heap m1 !! a = Some (BWorkmem (Workmem (Npos mem) (Npos buf))) ∧
    heap m1 !! mem = Some (BVmalloc 64) ∧
    heap m1 !! buf = Some (BVmalloc (2 * 4096)).
Proof.
  intros m1 s.
  assert (H : (22 ≠ 0)%Z) by discriminate.
  refine (wm_policy_free_checked_out 4096 22 64 (Kmem ∅ []) m1 (Policy false [1%N] [])
            [Thread User [] TASK_RUNNING] 0 (Thread User [] TASK_RUNNING) 1%N s
            H _ _ _ _); reflexivity.
Defined.

(** X1. [workmem_alloc] never faults and returns all or nothing: NULL with
    the live allocations unchanged, or a new structure whose two fields
    point to a new region of the requested size and a new region of two
    pages, with every allocation from before still in place. *)
Theorem workmem_alloc_all_or_nothing (PAGE_SIZE sz : Z) (m : kmem) :
  ∃ p m1,
    workmem_alloc PAGE_SIZE sz m = Some (p, m1) ∧
    ((p = NULL ∧ heap m1 = heap m) ∨
     ∃ w mem buf,
       p = Npos w ∧ w ≠ mem ∧ w ≠ buf ∧ mem ≠ buf ∧
       heap m !! w = None ∧ heap m !! mem = None ∧ heap m !! buf = None ∧
       heap m1 !! w = Some (BWorkmem (Workmem (Npos mem) (Npos buf))) ∧
       heap m1 !! mem = Some (BVmalloc sz) ∧
       heap m1 !! buf = Some (BVmalloc (2 * PAGE_SIZE)) ∧
       ∀ a, a ≠ w → a ≠ mem → a ≠ buf → heap m1 !! a = heap m !! a).
Proof.
  destruct (workmem_alloc_cases PAGE_SIZE sz m)
    as [[_ E]|[(_ & _ & E)|(_ & _ & _ & w & mem & buf & Hw & Hm & Hb & N1 & N2 & N3 & E)]];
    rewrite E; eexists _, _; (split; [reflexivity|]).
  - by left.
  - by left.
  - right. exists w, mem, buf. cbn [heap].
    do 7 (split; [done|]).
    split; [by rewrite lookup_insert_eq|].
    split; [by rewrite !lookup_insert_ne, lookup_insert_eq by done|].
    split; [by rewrite lookup_insert_ne, lookup_insert_eq by done|].
    intros a ? ? ?. by rewrite !lookup_insert_ne.
Qed.

(** A unit by its three addresses: the structure, the scratch region and
    the output region. *)
Definition unit_addrs : Type := positive * positive * positive.

Definition unit_ptr (u : unit_addrs) : ptr := Npos u.1.1.
Definition addrs_of (u : unit_addrs) : list positive := [u.1.1; u.1.2; u.2].

(** Memory [h] with the blocks of the units [us] on top. *)
Fixpoint with_units (sz out : Z) (us : list unit_addrs) (h : gmap positive block)
  : gmap positive block :=
  match us with
  | [] => h
  | u :: rest =>
      <[u.1.1 := BWorkmem (Workmem (Npos u.1.2) (Npos u.2))]>
        (<[u.2 := BVmalloc out]> (<[u.1.2 := BVmalloc sz]> (with_units sz out rest h)))
  end.

Lemma with_units_lookup_None sz out us h a :
  h !! a = None → a ∉ flat_map addrs_of us → with_units sz out us h !! a = None.
Proof.
  intros Hh. induction us as [|[[w mem] buf] us IH]; [done|].
  cbn [flat_map addrs_of with_units fst snd app].
  rewrite !not_elem_of_cons. intros (? & ? & ? & ?).
  rewrite !lookup_insert_ne by done. by apply IH.
Qed.

(** X4. [wm_policy_free] of a pool whose idle units are complete, live and
    pairwise apart releases every one of them, structure and regions, and
    leaves the idle list empty and the rest of memory as it is. *)
Theorem wm_policy_free_all (sz out : Z) (us : list unit_addrs)
    (h : gmap positive block) (p : list bool) (lock : bool) (wait : list tid) :
  NoDup (flat_map addrs_of us) →
  (∀ a, a ∈ flat_map addrs_of us → h !! a = None) →
  wm_policy_free (Policy lock (unit_ptr <$> us) wait)
    (Kmem (with_units sz out us h) p) =
  Some (Policy lock [] wait, Kmem h p).
Proof.
  intros Hnd Hfresh. unfold wm_policy_free. cbn [idle_workmem buffer_lock workmem_wait].
  assert (Hloop : wm_policy_free_loop (length (unit_ptr <$> us)) (unit_ptr <$> us)
                    (Kmem (with_units sz out us h) p) = Some ([], Kmem h p));
    [|unfold kbind; by rewrite Hloop].
  induction us as [|[[w mem] buf] us IH]; [done|].
  cbn [flat_map addrs_of fst snd app] in Hnd, Hfresh.
  apply NoDup_cons in Hnd as [Hw Hnd]. apply NoDup_cons in Hnd as [Hm Hnd].
  apply NoDup_cons in Hnd as [Hb Hnd].
  apply not_elem_of_cons in Hw as [? Hw]. apply not_elem_of_cons in Hw as [? Hw].
  apply not_elem_of_cons in Hm as [? Hm].
  cbn [fmap list_fmap length wm_policy_free_loop with_units unit_ptr fst snd].
  unfold kbind. change (unit_ptr (w, mem, buf)) with (Npos w).
  rewrite workmem_free_unit; try done.
  - rewrite list_del_head. apply IH; [done|].
    intros a Ha. apply Hfresh. by do 3 right.
  - apply with_units_lookup_None; [|done]. apply Hfresh. by left.
  - apply with_units_lookup_None; [|done]. apply Hfresh. right. by left.
  - apply with_units_lookup_None; [|done]. apply Hfresh. do 2 right. by left.
Qed.

Lemma wm_policy_free_all_witness :
  wm_policy_free (Policy false [5%N; 2%N] [])
    (Kmem (with_units 64 8192 [(5, 6, 7); (2, 3, 4)]%positive {[ 9%positive := BVmalloc 1 ]}) []) =
  Some (Policy false [] [], Kmem {[ 9%positive := BVmalloc 1 ]} []).
Proof.
  refine (wm_policy_free_all 64 8192 [(5, 6, 7); (2, 3, 4)]%positive
            {[ 9%positive := BVmalloc 1 ]} [] false [] _ _).
  - cbn [flat_map addrs_of fst snd app]. apply NoDup_ListNoDup.
    repeat constructor; cbn; intuition discriminate.
  - intros a Ha. cbn [flat_map addrs_of fst snd app] in Ha.
    repeat (apply elem_of_cons in Ha as [->|Ha]; [reflexivity|]).
    by apply elem_of_nil in Ha.
Defined.

(** ** More on the pool *)

(** X6. A get followed by a put of the unit, by a caller that runs alone
    with no waiter around, rotates the idle list by one unit and leaves
    the callers as they were; on a pool of one unit it restores the pool. *)
Theorem get_put_rotates (t : tid) (s : system) (th : thread) (w : ptr) (rest : list ptr) :
  threads s !! t = Some th → pc th = User →
  buffer_lock (pol s) = false → idle_workmem (pol s) = w :: rest →
  workmem_wait (pol s) = [] →
  ∃ s1,
    wm_policy_workmem_get t s = Some (w, s1) ∧
    wm_policy_workmem_put t w s1 = Some (System (Policy false (rest ++ [w]) []) (threads s)).
Proof.
  intros Ht Hpc Hlock Hidle Hwait.
  eexists. split; [by apply get_returns_head|].
  erewrite put_appends; cycle 1.
  - cbn [threads]. apply list_lookup_insert_eq. by eapply lookup_lt_Some.
  - done.
  - by left.
  - done.
  - cbn [pol threads idle_workmem workmem_wait pc held state].
    rewrite Hwait, list_del_head. cbn [head tail wake].
    rewrite list_insert_insert_eq. rewrite list_insert_id; [done|].
    rewrite Ht. f_equal. destruct th as [l hs st]. by cbn in *; subst.
Qed.

Lemma get_put_rotates_witness :
  let s := System (Policy false [4%N; 5%N] []) [Thread User [] TASK_RUNNING] in
  ∃ s1,
    wm_policy_workmem_get 0 s = Some (4%N, s1) ∧
    wm_policy_workmem_put 0 4%N s1 =
    Some (System (Policy false ([5%N] ++ [4%N]) []) (threads s)).
Proof.
  intros s.
  refine (get_put_rotates 0 s (Thread User [] TASK_RUNNING) 4%N [5%N] _ _ _ _ _);
    reflexivity.
Defined.

(** X7. A put hands the unit over to a sleeper: when the pool is empty and
    one caller sleeps in [wm_policy_workmem_get], a put by another caller
    wakes it, and the woken caller, running on, returns from its call with
    exactly the unit that was put. *)
Theorem put_hands_over (t u : tid) (s : system) (th : thread) (w : ptr) (hs : list ptr) :
  t ≠ u →
  threads s !! t = Some th → pc th = User → w ∈ held th →
  threads s !! u = Some (Thread GetSchedule hs TASK_UNINTERRUPTIBLE) →
  buffer_lock (pol s) = false → idle_workmem (pol s) = [] →
  workmem_wait (pol s) = [u] →
  ∃ s1,
    wm_policy_workmem_put t w s = Some s1 ∧
    finish 16 u s1 =
    Some (System (Policy false [] [])
            (<[u := Thread User (w :: hs) TASK_RUNNING]>
               (<[t := Thread User (list_del w (held th)) (state th)]> (threads s)))).
Proof.
  intros Htu Ht Hpc Hw Hu Hlock Hidle Hwait.
  eexists. split; [by apply put_appends|].
  rewrite Hidle, Hwait. cbn [head tail wake app].
  set (ths0 := <[t := Thread User (list_del w (held th)) (state th)]> (threads s)).
  assert (Hu0 : ths0 !! u = Some (Thread GetSchedule hs TASK_UNINTERRUPTIBLE)).
  { unfold ths0. by rewrite list_lookup_insert_ne. }
  assert (Halter : alter set_running u ths0 =
                   <[u := Thread GetSchedule hs TASK_RUNNING]> ths0).
  { apply list_eq. intros i. destruct (decide (i = u)) as [->|Hne].
    - rewrite list_lookup_alter_eq, Hu0.
      by rewrite list_lookup_insert_eq by (by eapply lookup_lt_Some).
    - by rewrite list_lookup_alter_ne, list_lookup_insert_ne. }
  rewrite Halter.
  assert (Hlt : u < length ths0) by (by eapply lookup_lt_Some).
  do 7 run_stmt Hlt. run_return Hlt. done.
Qed.

Lemma put_hands_over_witness :
  let s := System (Policy false [] [1])
             [Thread User [7%N] TASK_RUNNING;
              Thread GetSchedule [] TASK_UNINTERRUPTIBLE] in
  ∃ s1,
    wm_policy_workmem_put 0 7%N s = Some s1 ∧
    finish 16 1 s1 =
    Some (System (Policy false [] [])
            (<[1 := Thread User [7%N] TASK_RUNNING]>
               (<[0 := Thread User (list_del 7%N [7%N]) TASK_RUNNING]> (threads s)))).
Proof.
  intros s.
  refine (put_hands_over 0 1 s (Thread User [7%N] TASK_RUNNING) 7%N [] _ _ _ _ _ _ _ _);
    try reflexivity.
  - discriminate.
  - apply list_elem_of_here.
Defined.




(** ** The lock and the wait queue *)

Lemma exec_unlock t a policy th policy' th' woken :
  exec t a policy th = Some (policy', th', woken) →
  in_critical (pc th) = true → in_critical (pc th') = false →
  pc th' ≠ Fault →
  buffer_lock policy' = false.
Proof.
  destruct policy as [lock idle wait], th as [l hs st].
  unfold exec; simpl. intros He.
  destruct l, a; simpl in He; try done;
    repeat case_match; simplify_eq; simpl; try done.
Qed.

Lemma exec_critical_enabled t policy th :
  in_critical (pc th) = true → is_Some (exec t Run policy th).
Proof.
  destruct policy as [lock idle wait], th as [l hs st].
  unfold exec; simpl. destruct l; try done; intros _; repeat case_match; by eexists.
Qed.

Lemma lookup_step_self (t : tid) th' woken ths :
  t < length ths →
  ∃ x, wake woken (<[t := th']> ths) !! t = Some x ∧ pc x = pc th' ∧ held x = held th'.
Proof.
  intros Hlt. apply lookup_wake_same. by apply list_lookup_insert_eq.
Qed.

Lemma lookup_step_other (t t0 : tid) th' woken ths x0 :
  t0 ≠ t → ths !! t0 = Some x0 →
  ∃ x, wake woken (<[t := th']> ths) !! t0 = Some x ∧ pc x = pc x0 ∧ held x = held x0.
Proof.
  intros Hne Hx0. apply lookup_wake_same. by rewrite list_lookup_insert_ne.
Qed.

(** The lock is held only while some thread is between spin_lock and
    spin_unlock. *)
Definition holder_inv (s : system) : Prop :=
  buffer_lock (pol s) = true →
  ∃ t th, threads s !! t = Some th ∧ in_critical (pc th) = true.

Lemma holder_inv_step t a s s' :
  sys_step t a s = Some s' → lock_inv s → holder_inv s → holder_inv s'.
Proof.
  intros (th & policy & th' & woken & Ht & He & ->)%sys_step_inv Hinv Hh Hlock.
  cbn [pol threads] in *.
  destruct (exec_lock _ _ _ _ _ _ _ He) as (Hacq & Hsame & _ & _ & Hfault & _).
  assert (Hnf : pc th' ≠ Fault).
  { intros [Hp Hi]%Hfault. by apply (take_nonempty _ Hinv _ _ Ht Hp). }
  assert (Hlt : t < length (threads s)) by (by eapply lookup_lt_Some).
  destruct (in_critical (pc th')) eqn:Hc'.
  - destruct (lookup_step_self t th' woken (threads s) Hlt) as (x & Hx & Hpc & _).
    exists t, x. by rewrite Hpc.
  - destruct (in_critical (pc th)) eqn:Hc.
    + by rewrite (exec_unlock _ _ _ _ _ _ _ He Hc Hc' Hnf) in Hlock.
    + rewrite Hsame in Hlock by congruence.
      destruct (Hh Hlock) as (t0 & x0 & Hx0 & Hc0).
      assert (t0 ≠ t) by (intros ->; congruence).
      destruct (lookup_step_other t t0 th' woken (threads s) x0) as (x & Hx & Hpc & _);
        [done..|].
      exists t0, x. by rewrite Hpc.
Qed.

Lemma run_holder_inv sched s s' :
  run sched s = Some s' → lock_inv s → holder_inv s → holder_inv s'.
Proof.
  revert s. induction sched as [|[t a] sched IH]; simpl; intros s.
  - by intros [= <-].
  - destruct (sys_step t a s) as [s1|] eqn:Hs; [|done].
    intros Hr Hinv Hh. apply (IH _ Hr).
    + by eapply lock_inv_step.
    + by eapply holder_inv_step.
Qed.

(** X9. The spinlock guards the list: in every state the callers can reach,
    at most one thread is between spin_lock and spin_unlock, the lock is
    held exactly then, and the thread that holds it can run its next
    statement, so it never sleeps or spins with the lock held. *)
Theorem buffer_lock_exclusive (units : list ptr) (n : nat) (sched : schedule) (s : system) :
  run sched (pool_init units n) = Some s →
  (∀ t t' th th',
     threads s !! t = Some th → threads s !! t' = Some th' →
     in_critical (pc th) = true → in_critical (pc th') = true → t = t') ∧
  (∀ t th, threads s !! t = Some th → in_critical (pc th) = true →
           buffer_lock (pol s) = true ∧ is_Some (sys_step t Run s)) ∧
  (buffer_lock (pol s) = true →
   ∃ t th, threads s !! t = Some th ∧ in_critical (pc th) = true).
Proof.
  intros Hrun.
  destruct (run_inv _ _ _ Hrun (lock_inv_init units n)) as [Hinv _].
  assert (Hh : holder_inv s).
  { apply (run_holder_inv _ _ _ Hrun (lock_inv_init units n)). by intros ?. }
  split; [exact (critical_unique _ Hinv)|]. split; [|exact Hh].
  intros t th Ht Hc. split; [by eapply critical_locked|].
  unfold sys_step. rewrite Ht.
  destruct (exec_critical_enabled t (pol s) th Hc) as [[[policy th'] woken] ->].
  by eexists.
Qed.

Lemma buffer_lock_exclusive_witness :
  let s := System (Policy true [] [])
             [Thread User [7%N] TASK_RUNNING; Thread GetTest [] TASK_RUNNING] in
  (∀ t t' th th',
     threads s !! t = Some th → threads s !! t' = Some th' →
     in_critical (pc th) = true → in_critical (pc th') = true → t = t') ∧
  (∀ t th, threads s !! t = Some th → in_critical (pc th) = true →
           buffer_lock (pol s) = true ∧ is_Some (sys_step t Run s)) ∧
  (buffer_lock (pol s) = true →
   ∃ t th, threads s !! t = Some th ∧ in_critical (pc th) = true).
Proof.
  refine (buffer_lock_exclusive [7%N] 2
            [(0, CallGet); (1, CallGet); (0, Run); (0, Run); (0, Run);
             (0, Run); (1, Run); (0, Run)] _ _).
  reflexivity.
Defined.

(** The statements of [wm_policy_workmem_get] between
    prepare_to_wait_exclusive and the end of finish_wait. *)
Definition waiting (l : label) : bool :=
  match l with
  | GetRecheck | GetSchedule | GetFinish => true
  | _ => false
  end.

(** What one statement does to the wait queue and to the scheduling state
    of its thread: nothing, or it is the prepare, the finish or the wake. *)
Lemma exec_wait t a policy th policy' th' woken :
  exec t a policy th = Some (policy', th', woken) →
  (woken = None ∧ workmem_wait policy' = workmem_wait policy ∧
   state th' = state th ∧ waiting (pc th') = waiting (pc th))
  ∨ (pc th = GetPrepare ∧ pc th' = GetRecheck ∧ state th' = TASK_UNINTERRUPTIBLE ∧
     woken = None ∧
     workmem_wait policy' =
       if bool_decide (t ∈ workmem_wait policy)
       then workmem_wait policy else workmem_wait policy ++ [t])
  ∨ (pc th = GetFinish ∧ pc th' = GetLock ∧ state th' = TASK_RUNNING ∧
     woken = None ∧
     workmem_wait policy' = filter (λ u, u ≠ t) (workmem_wait policy))
  ∨ (pc th = PutWake ∧ pc th' = User ∧
     ∃ u rest, workmem_wait policy = u :: rest ∧ workmem_wait policy' = rest ∧
               woken = Some u).
Proof.
  destruct policy as [lock idle wait], th as [l hs st].
  unfold exec; cbn [pc held state buffer_lock idle_workmem workmem_wait]. intros He.
  destruct l, a; try discriminate He;
    try (repeat case_match; simplify_eq; left; done).
  - right. left. unfold prepare_to_wait_exclusive in He. by simplify_eq.
  - right. right. left. unfold finish_wait in He. by simplify_eq.
  - destruct wait as [|u rest]; cbn in He; simplify_eq.
    + by left.
    + do 3 right. eauto 10.
Qed.

Record wait_inv (s : system) : Prop := WaitInv {
  wait_nodup : NoDup (workmem_wait (pol s));
  wait_queued : ∀ t, t ∈ workmem_wait (pol s) →
    ∃ th, threads s !! t = Some th ∧ waiting (pc th) = true ∧
          state th = TASK_UNINTERRUPTIBLE;
  wait_asleep : ∀ t th,
    threads s !! t = Some th → waiting (pc th) = true →
    state th = TASK_UNINTERRUPTIBLE → t ∈ workmem_wait (pol s)
}.

Lemma wait_inv_init units n : wait_inv (pool_init units n).
Proof.
  split; simpl.
  - apply NoDup_nil_2.
  - by intros t ?%elem_of_nil.
  - by intros t th [-> _]%lookup_replicate.
Qed.

Lemma wait_inv_step t a s s' :
  sys_step t a s = Some s' → wait_inv s → wait_inv s'.
Proof.
  intros (th & policy & th' & woken & Ht & He & ->)%sys_step_inv [W1 W2 W3].
  assert (Hlt : t < length (threads s)) by (by eapply lookup_lt_Some).
  destruct (exec_wait _ _ _ _ _ _ _ He)
    as [(-> & Hq & Hst & Hw)
       |[(Hpc & Hpc' & Hst & -> & Hq)
        |[(Hpc & Hpc' & Hst & -> & Hq)
         |(Hpc & Hpc' & u & rest & Hq0 & Hq & ->)]]];
    split; cbn [pol threads wake]; rewrite Hq.
  - (* an ordinary statement *) done.
  - intros t0 Hin. destruct (W2 _ Hin) as (x0 & Hx0 & Hwt & Hs0).
    destruct (decide (t0 = t)) as [->|Hne].
    + exists th'. rewrite list_lookup_insert_eq by done. simplify_eq. by rewrite Hw, Hst.
    + exists x0. by rewrite list_lookup_insert_ne.
  - intros t0 x Hx Hwt Hs0. destruct (decide (t0 = t)) as [->|Hne].
    + rewrite list_lookup_insert_eq in Hx by done. simplify_eq.
      apply (W3 _ _ Ht); congruence.
    + rewrite list_lookup_insert_ne in Hx by done. eauto.
  - (* prepare_to_wait_exclusive *)
    case_bool_decide; [done|]. apply NoDup_app. split; [done|]. split.
    + intros x Hx ->%list_elem_of_singleton. done.
    + apply NoDup_singleton.
  - assert (Hnq : t ∉ workmem_wait (pol s)).
    { intros (x & Hx & Hwt & _)%W2. simplify_eq. by rewrite Hpc in Hwt. }
    rewrite bool_decide_eq_false_2 by done.
    intros t0 [Hin| ->%list_elem_of_singleton]%elem_of_app.
    + destruct (W2 _ Hin) as (x0 & Hx0 & ? & ?).
      exists x0. rewrite list_lookup_insert_ne; [done|]. by intros ->.
    + exists th'. rewrite list_lookup_insert_eq by done. by rewrite Hpc', Hst.
  - intros t0 x Hx Hwt Hs0. destruct (decide (t0 = t)) as [->|Hne].
    + case_bool_decide; [done|]. apply elem_of_app. right. by apply list_elem_of_singleton.
    + rewrite list_lookup_insert_ne in Hx by done.
      case_bool_decide; [by eauto|]. apply elem_of_app. left. by eauto.
  - (* finish_wait *) by apply NoDup_filter.
  - intros t0 [Hne Hin]%list_elem_of_filter.
    destruct (W2 _ Hin) as (x0 & Hx0 & ? & ?).
    exists x0. by rewrite list_lookup_insert_ne.
  - intros t0 x Hx Hwt Hs0. destruct (decide (t0 = t)) as [->|Hne].
    + rewrite list_lookup_insert_eq in Hx by done. simplify_eq. by rewrite Hpc' in Hwt.
    + rewrite list_lookup_insert_ne in Hx by done.
      apply list_elem_of_filter. split; [done|]. by eauto.
  - (* wake_up *) rewrite Hq0 in W1. by apply NoDup_cons in W1 as [_ ?].
  - rewrite Hq0 in W1, W2. apply NoDup_cons in W1 as [Hu _].
    intros t0 Hin. destruct (W2 t0) as (x0 & Hx0 & Hwt & Hs0); [by right|].
    assert (t0 ≠ u) by (by intros ->).
    assert (t0 ≠ t) by (intros ->; simplify_eq; by rewrite Hpc in Hwt).
    exists x0. rewrite list_lookup_alter_ne by done. by rewrite list_lookup_insert_ne.
  - rewrite Hq0 in W3.
    intros t0 x Hx Hwt Hs0. destruct (decide (t0 = u)) as [->|Hnu].
    + rewrite list_lookup_alter_eq in Hx.
      destruct (<[t:=th']> (threads s) !! u) as [y|]; simplify_eq/=.
    + rewrite list_lookup_alter_ne in Hx by done.
      destruct (decide (t0 = t)) as [->|Hne].
      * rewrite list_lookup_insert_eq in Hx by done. simplify_eq. by rewrite Hpc' in Hwt.
      * rewrite list_lookup_insert_ne in Hx by done.
        specialize (W3 _ _ Hx Hwt Hs0). apply elem_of_cons in W3 as [?|?]; done.
Qed.

Lemma run_wait_inv sched s s' :
  run sched s = Some s' → wait_inv s → wait_inv s'.
Proof.
  revert s. induction sched as [|[t a] sched IH]; simpl; intros s.
  - by intros [= <-].
  - destruct (sys_step t a s) as [s1|] eqn:Hs; [|done].
    intros Hr Hinv. apply (IH _ Hr). by eapply wait_inv_step.
Qed.

(** X10. No sleeper is out of sight: in every state the callers can reach, a
    caller that is between prepare_to_wait_exclusive and finish_wait and
    has not been woken is on the wait queue, where the
    [waitqueue_active] of a put finds it; the queue holds only such
    callers, each once; and a caller can be blocked at [schedule()] only. *)
Theorem wait_queue_sound (units : list ptr) (n : nat) (sched : schedule) (s : system) :
  run sched (pool_init units n) = Some s →
  NoDup (workmem_wait (pol s)) ∧
  (∀ t, t ∈ workmem_wait (pol s) →
     ∃ th, threads s !! t = Some th ∧ waiting (pc th) = true ∧
           state th = TASK_UNINTERRUPTIBLE) ∧
  (∀ t th, threads s !! t = Some th → waiting (pc th) = true →
           state th = TASK_UNINTERRUPTIBLE → t ∈ workmem_wait (pol s)) ∧
  (∀ t th, threads s !! t = Some th → pc th = GetSchedule →
           sys_step t Run s = None →
           t ∈ workmem_wait (pol s) ∧ waitqueue_active (workmem_wait (pol s)) = true).
Proof.
  intros Hrun.
  destruct (run_wait_inv _ _ _ Hrun (wait_inv_init units n)) as [W1 W2 W3].
  do 3 (split; [done|]).
  intros t th Ht Hpc Hblocked.
  assert (Hin : t ∈ workmem_wait (pol s)).
  { apply (W3 _ _ Ht); [by rewrite Hpc|].
    unfold sys_step in Hblocked. rewrite Ht in Hblocked.
    destruct th as [l hs st]. cbn in Hpc. subst l.
    unfold exec in Hblocked. cbn in Hblocked. by destruct st. }
  split; [done|]. by destruct (workmem_wait (pol s)); [apply elem_of_nil in Hin|].
Qed.

Lemma wait_queue_sound_witness :
  let s := System (Policy false [] [0])
             [Thread GetSchedule [] TASK_UNINTERRUPTIBLE] in
  NoDup (workmem_wait (pol s)) ∧
  (∀ t, t ∈ workmem_wait (pol s) →
     ∃ th, threads s !! t = Some th ∧ waiting (pc th) = true ∧
           state th = TASK_UNINTERRUPTIBLE) ∧
  (∀ t th, threads s !! t = Some th → waiting (pc th) = true →
           state th = TASK_UNINTERRUPTIBLE → t ∈ workmem_wait (pol s)) ∧
  (∀ t th, threads s !! t = Some th → pc th = GetSchedule →
           sys_step t Run s = None →
           t ∈ workmem_wait (pol s) ∧ waitqueue_active (workmem_wait (pol s)) = true).
Proof.
  refine (wait_queue_sound [] 1
            [(0, CallGet); (0, Run); (0, Run); (0, Run); (0, Run); (0, Run)] _ _).
  reflexivity.
Defined.

(** ** More on the registry *)

(** X11. When the handle cannot be allocated, [zcomp_create] of a known name
    returns NULL without calling the backend's constructor, and nothing
    is allocated. *)
Theorem zcomp_create_no_memory (LZO LZ4 : bool) (sysfs_streq : string → string → bool)
    (call_create : fn → ptr → kern Z) (call_destroy : fn → ptr → kern unit)
    (compress : string) (m : kmem) (row : zcomp) :
  registry_find LZO LZ4 sysfs_streq compress = Some row →
  granted (pressure m !! 0) = false →
  zcomp_create LZO LZ4 sysfs_streq call_create call_destroy compress m =
  Some (NULL, Kmem (heap m) (tail (pressure m))) ∧
  ∀ other_create,
    zcomp_create LZO LZ4 sysfs_streq other_create call_destroy compress m =
    zcomp_create LZO LZ4 sysfs_streq call_create call_destroy compress m.
Proof.
  intros Hfind Hden.
  assert (H : ∀ cc, zcomp_create LZO LZ4 sysfs_streq cc call_destroy compress m =
                    Some (NULL, Kmem (heap m) (tail (pressure m)))).
  { intros cc. rewrite zcomp_create_find, Hfind.
    unfold zcomp_create_from, kbind, kzalloc_comp. by rewrite alloc_denied. }
  split; [apply H|]. intros cc. by rewrite !H.
Qed.

Lemma zcomp_create_no_memory_witness :
  zcomp_create true true sysfs_streq_spec example_create example_destroy
    "lzo" (Kmem ∅ [false; true]) =
  Some (NULL, Kmem (heap (Kmem ∅ [false; true])) (tail (pressure (Kmem ∅ [false; true])))) ∧
  ∀ other_create,
    zcomp_create true true sysfs_streq_spec other_create example_destroy
      "lzo" (Kmem ∅ [false; true]) =
    zcomp_create true true sysfs_streq_spec example_create example_destroy
      "lzo" (Kmem ∅ [false; true]).
Proof.
  refine (zcomp_create_no_memory true true sysfs_streq_spec example_create example_destroy
            "lzo" (Kmem ∅ [false; true])
            (Zcomp (Some "lzo") (Some zcomp_lzo_create) (Some zcomp_lzo_destroy)) _ _);
    reflexivity.
Defined.

(** X12. The search loop of [zcomp_create] stays inside the table: whatever
    the configuration and the comparison, it does not fault, it stops at
    the first row whose name compares equal, or at the index of the
    terminating row when there is none, and it never compares the
    requested name with the terminating row. *)
Theorem zcomp_create_loop_in_bounds (LZO LZ4 : bool)
    (sysfs_streq : string → string → bool) (compress : string) :
  let table := compressors LZO LZ4 in
  ∃ i,
    zcomp_create_loop LZO LZ4 sysfs_streq (ARRAY_SIZE table - 1) 0 compress = Some i ∧
    i ≤ ARRAY_SIZE table - 1 ∧
    table !! (ARRAY_SIZE table - 1) = Some (Zcomp None None None) ∧
    (∀ j row name, j < i → table !! j = Some row → zc_name row = Some name →
                   sysfs_streq compress name = false) ∧
    (i < ARRAY_SIZE table - 1 →
     ∃ row name, table !! i = Some row ∧ zc_name row = Some name ∧
                 sysfs_streq compress name = true ∧
                 registry_find LZO LZ4 sysfs_streq compress = Some row) ∧
    (i = ARRAY_SIZE table - 1 → registry_find LZO LZ4 sysfs_streq compress = None).
Proof.
  intros table. subst table.
  unfold registry_find, row_matches, compressors, ARRAY_SIZE.
  destruct LZO, LZ4; simpl;
    repeat match goal with |- context [sysfs_streq compress ?n] =>
             destruct (sysfs_streq compress n) eqn:?; simpl end;
    eexists; (split; [reflexivity|]); (split; [lia|]); (split; [reflexivity|]);
    (split; [|split]); try (intros; lia); try done.
  all: try (intros [|[|j]] row name Hj Hrow Hn; try lia; cbn in Hrow; by simplify_eq/=).
  all: try (intros _; eexists _, _; by repeat split).
Qed.

(** The buffer [buf] holds [text] and its NUL at the start and is [buf0]
    from there on; before anything is written it is [buf0]. *)
Definition written (text : string) (buf0 buf : list ascii) (sz : Z) : Prop :=
  sz = Z.of_nat (String.length text) ∧
  ((text = EmptyString ∧ buf = buf0) ∨
   buf = list_ascii_of_string text ++ zero :: drop (S (String.length text)) buf0).

Lemma sprintf_written text buf0 buf sz fmt arg :
  written text buf0 buf sz →
  written (text +:+ format fmt arg) buf0 (sprintf buf sz fmt arg).1
          (sz + (sprintf buf sz fmt arg).2).
Proof.
  intros [-> Hbuf]. unfold sprintf. cbn [fst snd]. rewrite Nat2Z.id.
  set (new := list_ascii_of_string (format fmt arg)).
  assert (Hlen : String.length (text +:+ format fmt arg) =
                 String.length text + length new).
  { rewrite <- !length_list_ascii, list_ascii_app. apply length_app. }
  split; [rewrite Hlen; lia|]. right. rewrite Hlen, list_ascii_app.
  destruct Hbuf as [[-> ->]| ->].
  - cbn [String.length list_ascii_of_string app]. rewrite take_0.
    cbn [app]. do 2 f_equal. f_equal. lia.
  - set (old := list_ascii_of_string text).
    assert (Ho : length old = String.length text) by apply length_list_ascii.
    rewrite <- Ho. rewrite take_app_length.
    rewrite <- app_assoc. do 2 f_equal. f_equal.
    rewrite drop_app_ge by lia.
    replace (length old + length new + 1 - length old) with (S (length new)) by lia.
    cbn [drop]. rewrite drop_drop. f_equal; lia.
Qed.

Lemma show_loop_step_written LZO LZ4 n i comp buf0 buf sz m active name c d text :
  compressors LZO LZ4 !! i = Some (Zcomp (Some name) c d) →
  active_backend comp m = Some active →
  (∀ cname, active = Some cname → nul_free cname = true) →
  nul_free name = true →
  written text buf0 buf sz →
  ∃ buf' sz',
    zcomp_available_show_loop LZO LZ4 (S n) i comp buf sz m =
    zcomp_available_show_loop LZO LZ4 n (S i) comp buf' sz' m ∧
    written (text +:+ show_name active name) buf0 buf' sz'.
Proof.
  intros Hrow Hact Hnf Hname Hw.
  cbn [zcomp_available_show_loop]. rewrite Hrow. unfold kbind at 1.
  destruct comp as [|a]; cbn [is_null N.eqb NULL].
  - injection Hact as <-. unfold kret at 1. cbn [show_name].
    pose proof (sprintf_written text buf0 buf sz "%s " name Hw).
    by eexists _, _.
  - unfold active_backend in Hact. unfold kbind at 1, load_comp.
    destruct (heap m !! a) as [[| |c0]|]; try done.
    destruct (comp_name c0) as [cname|]; [|done]. injection Hact as <-.
    unfold kret at 1. rewrite strcmp_eqb by auto. cbn [show_name].
    destruct (String.eqb cname name).
    + pose proof (sprintf_written text buf0 buf sz "<%s> " name Hw).
      by eexists _, _.
    + pose proof (sprintf_written text buf0 buf sz "%s " name Hw).
      by eexists _, _.
Qed.

Lemma listing_length LZO LZ4 active :
  1 ≤ String.length (listing LZO LZ4 active) ≤ 11.
Proof.
  unfold listing, backend_names, show_name.
  destruct active as [cname|]; destruct LZO, LZ4; simpl;
    repeat match goal with |- context [String.eqb cname ?n] =>
             destruct (String.eqb_spec cname n); simpl end;
    try congruence; vm_compute; lia.
Qed.

(** X13. What [zcomp_available_show] does to the buffer: for a null [comp] or
    one that points to a live handle with a name, it writes the listing
    and a terminating NUL at the start of [buf], which is 12 bytes at
    most, leaves every byte of [buf] after them as it was, returns the
    length of the listing, between 1 and 11, and does not change memory. *)
Theorem zcomp_available_show_buffer (LZO LZ4 : bool) (comp : ptr)
    (buf : list ascii) (m : kmem) (active : option string) :
  active_backend comp m = Some active →
  (∀ cname, active = Some cname → nul_free cname = true) →
  let text := listing LZO LZ4 active in
  zcomp_available_show LZO LZ4 comp buf m =
    Some ((list_ascii_of_string text ++ zero :: drop (S (String.length text)) buf,
           Z.of_nat (String.length text)), m) ∧
  1 ≤ String.length text ≤ 11.
Proof.
  intros Hact Hnf text. split; [|apply listing_length]. subst text.
  assert (Hend : ∀ text buf1 sz1,
    written text buf buf1 sz1 →
    listing LZO LZ4 active = text +:+ newline →
    kret ((sprintf buf1 sz1 newline "").1,
          (sz1 + (sprintf buf1 sz1 newline "").2)%Z) m =
    Some ((list_ascii_of_string (listing LZO LZ4 active) ++
             zero :: drop (S (String.length (listing LZO LZ4 active))) buf,
           Z.of_nat (String.length (listing LZO LZ4 active))), m)).
  { intros text buf1 sz1 Hw ->.
    destruct (sprintf_written text buf buf1 sz1 newline "" Hw) as [Hsz [[Hnil _]|Hb]].
    - change (format newline "") with newline in Hnil. by destruct text.
    - change (format newline "") with newline in *.
      unfold kret. by rewrite Hsz, Hb. }
  assert (H0 : written "" buf buf 0) by (split; [done|by left]).
  unfold zcomp_available_show, kbind.
  destruct LZO, LZ4; cbn [compressors ARRAY_SIZE app length Nat.sub].
  - edestruct (show_loop_step_written true true 1 0 comp buf buf 0%Z m active "lzo")
      as (buf1 & sz1 & -> & Hw1); [done..|].
    edestruct (show_loop_step_written true true 0 1 comp buf buf1 sz1 m active "lz4")
      as (buf2 & sz2 & -> & Hw2); [done..|].
    cbn [zcomp_available_show_loop kret fst snd].
    apply (Hend _ _ _ Hw2). unfold listing. simpl. by rewrite !string_app_assoc.
  - edestruct (show_loop_step_written true false 0 0 comp buf buf 0%Z m active "lzo")
      as (buf1 & sz1 & -> & Hw1); [done..|].
    cbn [zcomp_available_show_loop kret fst snd].
    apply (Hend _ _ _ Hw1). unfold listing. simpl. by rewrite !string_app_assoc.
  - edestruct (show_loop_step_written false true 0 0 comp buf buf 0%Z m active "lz4")
      as (buf1 & sz1 & -> & Hw1); [done..|].
    cbn [zcomp_available_show_loop kret fst snd].
    apply (Hend _ _ _ Hw1). unfold listing. simpl. by rewrite !string_app_assoc.
  - cbn [zcomp_available_show_loop kret fst snd].
    by apply (Hend _ _ _ H0).
Qed.

Lemma zcomp_available_show_buffer_witness :
  let m := Kmem {[ 1%positive := BComp (Comp None None None None (Some zcomp_lzo_create)
                                          (Some zcomp_lzo_destroy) NULL (Some "lzo")) ]} [] in
  let buf := replicate 16 "x"%char in
  let text := listing true true (Some "lzo") in
  zcomp_available_show true true 1%N buf m =
    Some ((list_ascii_of_string text ++ zero :: drop (S (String.length text)) buf,
           Z.of_nat (String.length text)), m) ∧
  1 ≤ String.length text ≤ 11.
Proof.
  intros m buf.
  refine (zcomp_available_show_buffer true true 1%N buf m (Some "lzo") _ _).
  - reflexivity.
  - intros cname [= <-]. reflexivity.
Defined.
